(** * Transcode job lifecycle of [src/server/server.js]

    A shallow embedding of the upload / probe / encode / status handlers of
    the DASH transcoding server, with the JavaScript primitives they rely
    on (IEEE-754 doubles, [parseInt], [parseFloat], the conversion of a
    string to a number, [String.prototype.split], [Array.prototype.join],
    property reads on a plain object), followed by
    the properties of the job lifecycle stated in the specification. *)

From Stdlib Require Import ZArith String Ascii List Bool Lia.
From Stdlib Require Import Floats.SpecFloat.
From stdpp Require Import gmap strings list fin_maps pretty.

Local Open Scope Z_scope.

(* ===================================================================== *)
(** ** JavaScript numbers: IEEE-754 binary64 *)
(* ===================================================================== *)

(** A JavaScript Number is a binary64 value.  [spec_float] is the Standard
    Library's specification of IEEE-754 arithmetic; the operators below
    instantiate it at precision 53 and maximal exponent 1024, rounding to
    nearest, ties to even, which is what [+], [*] and [/] do in JavaScript. *)
Module JsNumber.

Definition number : Type := spec_float.

Definition prec : Z := 53.
Definition emax : Z := 1024.

Definition NaN : number := S754_nan.

(** The Number nearest to the integer [z] (an integer literal such as
    [100] or [3600]; exact below [2^53]). *)
Definition of_Z (z : Z) : number := binary_normalize prec emax z 0 false.

Definition add (x y : number) : number := SFadd prec emax x y.
Definition mul (x y : number) : number := SFmul prec emax x y.
Definition div (x y : number) : number := SFdiv prec emax x y.

Definition ltb (x y : number) : bool := SFltb x y.
Definition leb (x y : number) : bool := SFleb x y.

(** ToBoolean on a Number: [0], [-0] and [NaN] are falsy. *)
Definition truthy (x : number) : bool :=
  match x with
  | S754_zero _ | S754_nan => false
  | _ => true
  end.

(** Neither NaN nor negative, sign bit clear: [+0], a positive finite
    value or [+Infinity]. *)
Definition nonneg (x : number) : bool :=
  match x with
  | S754_zero false | S754_infinity false | S754_finite false _ _ => true
  | _ => false
  end.

(** A positive finite value. *)
Definition positive_finite (x : number) : bool :=
  match x with
  | S754_finite false _ _ => true
  | _ => false
  end.

(** The mathematical integer [floor (±m * 2^e)]. *)
Definition floorZ (s : bool) (m : positive) (e : Z) : Z :=
  let v := cond_Zopp s (Zpos m) in
  if 0 <=? e then v * 2 ^ e else v / 2 ^ (- e).

(** [Math.floor]: NaN, the infinities and both zeros are returned
    unchanged; a finite value goes to the largest integer below it. *)
Definition floor (x : number) : number :=
  match x with
  | S754_finite s m e => of_Z (floorZ s m e)
  | _ => x
  end.

(** [Math.min] on two arguments: NaN if either is NaN, and [-0] counts
    as smaller than [+0]. *)
Definition min (x y : number) : number :=
  match SFcompare x y with
  | None => NaN
  | Some Lt => x
  | Some Gt => y
  | Some Eq =>
      match y with
      | S754_zero true => y
      | _ => x
      end
  end.

(** The Number nearest to [±m * 10^k] for a decimal literal with digits
    [m]: the rounding done when a string is read as a number. *)
Definition of_decimal (neg : bool) (m : Z) (k : Z) : number :=
  match m with
  | Zpos p =>
      if 0 <=? k then binary_normalize prec emax (cond_Zopp neg (Zpos p * 10 ^ k)) 0 false
      else SFdiv prec emax (S754_finite neg p 0) (S754_finite false (Z.to_pos (10 ^ (- k))) 0)
  | _ => S754_zero neg
  end.

End JsNumber.

Abbreviation number := JsNumber.number.

(* ===================================================================== *)
(** ** JavaScript strings *)
(* ===================================================================== *)

Module JsString.

Definition code (c : ascii) : Z := Z.of_nat (nat_of_ascii c).

(** White space skipped by [parseInt] and [parseFloat] (the one-byte
    members of the class: TAB, LF, VT, FF, CR, SPACE). *)
Definition is_white_space (c : ascii) : bool :=
  let n := code c in ((9 <=? n) && (n <=? 13)) || (n =? 32).

Definition digit (c : ascii) : option Z :=
  let n := code c in
  if (48 <=? n) && (n <=? 57) then Some (n - 48) else None.

Fixpoint trimStart (s : string) : string :=
  match s with
  | String c r => if is_white_space c then trimStart r else s
  | EmptyString => s
  end.

(** A leading ["-"] or ["+"] and what follows it. *)
Definition sign_of (s : string) : bool * string :=
  match s with
  | String c r =>
      if Ascii.eqb c "-" then (true, r)
      else if Ascii.eqb c "+" then (false, r)
      else (false, s)
  | EmptyString => (false, s)
  end.

(** The longest prefix of decimal digits, and the rest of the string. *)
Fixpoint digits (s : string) : list Z * string :=
  match s with
  | String c r =>
      match digit c with
      | Some d => let '(ds, rest) := digits r in (d :: ds, rest)
      | None => ([], s)
      end
  | EmptyString => ([], s)
  end.

Definition digits_value (ds : list Z) : Z :=
  fold_left (fun acc d => 10 * acc + d) ds 0.

(** [parseInt(s, 10)]. *)
Definition parseInt (s : string) : number :=
  let '(neg, r) := sign_of (trimStart s) in
  let '(ds, _) := digits r in
  match ds with
  | [] => JsNumber.NaN
  | _ :: _ =>
      match digits_value ds with
      | 0 => S754_zero neg
      | n => JsNumber.of_Z (cond_Zopp neg n)
      end
  end.

(** The exponent part [e±ddd] of a decimal literal, when a complete one
    starts the string; otherwise exponent zero. *)
Definition exponent_part (s : string) : Z :=
  match s with
  | String c r =>
      if Ascii.eqb c "e" || Ascii.eqb c "E" then
        let '(neg, r') := sign_of r in
        let '(ds, _) := digits r' in
        match ds with
        | [] => 0
        | _ :: _ => cond_Zopp neg (digits_value ds)
        end
      else 0
  | EmptyString => 0
  end.

(** [parseFloat(s)]: the value of the longest prefix that is a
    StrDecimalLiteral, or NaN when no prefix is one. *)
Definition parseFloat (s : string) : number :=
  let '(neg, r) := sign_of (trimStart s) in
  if String.prefix "Infinity" r then S754_infinity neg
  else
    let '(ip, r1) := digits r in
    let '(fp, r2) :=
      match r1 with
      | String c r' => if Ascii.eqb c "." then digits r' else ([], r1)
      | EmptyString => ([], r1)
      end in
    match ip ++ fp with
    | [] => JsNumber.NaN
    | ds =>
        JsNumber.of_decimal neg (digits_value ds)
          (exponent_part r2 - Z.of_nat (List.length fp))
    end.

(** [s.split(sep)] for a one-character separator: the fields between
    the occurrences of [sep], in order; never the empty list. *)
Fixpoint split (sep : ascii) (s : string) : list string :=
  match s with
  | EmptyString => [EmptyString]
  | String c r =>
      if Ascii.eqb c sep then EmptyString :: split sep r
      else
        match split sep r with
        | f :: fs => String c f :: fs
        | [] => [String c EmptyString]
        end
  end.

(** [parts.join(sep)]. *)
Fixpoint join (sep : string) (parts : list string) : string :=
  match parts with
  | [] => EmptyString
  | [p] => p
  | p :: ps => p +:+ sep +:+ join sep ps
  end.

(** Does the character occur in the string. *)
Fixpoint mem (c : ascii) (s : string) : bool :=
  match s with
  | EmptyString => false
  | String c' r => Ascii.eqb c c' || mem c r
  end.

(** The string without its trailing white space. *)
Fixpoint trimEnd (s : string) : string :=
  match s with
  | EmptyString => EmptyString
  | String c r =>
      match trimEnd r with
      | EmptyString => if is_white_space c then EmptyString else String c EmptyString
      | r' => String c r'
      end
  end.

(** The value of a digit in a radix of at most sixteen. *)
Definition radix_digit (radix : Z) (c : ascii) : option Z :=
  let n := code c in
  let v :=
    if (48 <=? n) && (n <=? 57) then n - 48
    else if (97 <=? n) && (n <=? 102) then n - 87
    else if (65 <=? n) && (n <=? 70) then n - 55
    else radix in
  if v <? radix then Some v else None.

(** The integer a string of digits in the radix denotes, after [acc]. *)
Fixpoint radix_value (radix : Z) (s : string) (acc : Z) : option Z :=
  match s with
  | EmptyString => Some acc
  | String c r =>
      match radix_digit radix c with
      | Some d => radix_value radix r (radix * acc + d)
      | None => None
      end
  end.

(** The radix a two-character prefix [0x], [0o] or [0b] announces. *)
Definition radix_of (c : ascii) : option Z :=
  if Ascii.eqb c "x" || Ascii.eqb c "X" then Some 16
  else if Ascii.eqb c "o" || Ascii.eqb c "O" then Some 8
  else if Ascii.eqb c "b" || Ascii.eqb c "B" then Some 2
  else None.

(** A NonDecimalIntegerLiteral: [Some v] when the string starts with one
    of the three prefixes, [v] being NaN unless digits of the radix make
    up all the rest. *)
Definition non_decimal (s : string) : option number :=
  match s with
  | String c0 (String c1 r) =>
      if Ascii.eqb c0 "0" then
        match radix_of c1 with
        | Some radix =>
            Some match r with
                 | EmptyString => JsNumber.NaN
                 | _ =>
                     match radix_value radix r 0 with
                     | Some v => JsNumber.of_Z v
                     | None => JsNumber.NaN
                     end
                 end
        | None => None
        end
      else None
  | _ => None
  end.

(** An exponent part that makes up the whole string, the empty string
    standing for exponent zero. *)
Definition whole_exponent (s : string) : option Z :=
  match s with
  | EmptyString => Some 0
  | String c r =>
      if Ascii.eqb c "e" || Ascii.eqb c "E" then
        let '(neg, r') := sign_of r in
        match digits r' with
        | ((_ :: _) as ds, EmptyString) => Some (cond_Zopp neg (digits_value ds))
        | _ => None
        end
      else None
  end.

(** A StrDecimalLiteral that makes up the whole string, else NaN. *)
Definition decimal_literal (s : string) : number :=
  let '(neg, r) := sign_of s in
  if String.eqb r "Infinity" then S754_infinity neg
  else
    let '(ip, r1) := digits r in
    let '(fp, r2) :=
      match r1 with
      | String c r' => if Ascii.eqb c "." then digits r' else ([], r1)
      | EmptyString => ([], r1)
      end in
    match ip ++ fp, whole_exponent r2 with
    | (_ :: _) as ds, Some e =>
        JsNumber.of_decimal neg (digits_value ds) (e - Z.of_nat (List.length fp))
    | _, _ => JsNumber.NaN
    end.

(** ToNumber on a string: white space at both ends is dropped, the empty
    string is [+0], and anything that is not a numeric literal from end
    to end is NaN. *)
Definition to_number (s : string) : number :=
  match trimEnd (trimStart s) with
  | EmptyString => S754_zero false
  | t =>
      match non_decimal t with
      | Some v => v
      | None => decimal_literal t
      end
  end.

End JsString.

(* ===================================================================== *)
(** ** The value of a duration *)
(* ===================================================================== *)

(** The two conversions the ['progress'] listener applies to the
    [duration] it closes over: ToBoolean in [duration && ...] and ToNumber
    in [secs / duration]. *)
Class Operand (V : Type) := {
  to_boolean : V -> bool;
  to_number : V -> number
}.

(** A Number is its own numeric value. *)
#[global] Instance number_operand : Operand number :=
  {| to_boolean := JsNumber.truthy; to_number := fun v => v |}.

(** What the prober's wrapper stores under [format.duration]: a Number
    when the value printed by the prober is a plain decimal numeral, and
    otherwise the printed string, which is ["N/A"] for an input whose
    container gives no duration. *)
Inductive Duration :=
  | seconds (d : number)
  | text (s : string).

(** A string is truthy unless it is empty, and is read as a number by
    ToNumber. *)
#[global] Instance duration_operand : Operand Duration :=
  {| to_boolean v :=
       match v with
       | seconds d => JsNumber.truthy d
       | text s => negb (String.eqb s EmptyString)
       end;
     to_number v :=
       match v with
       | seconds d => d
       | text s => JsString.to_number s
       end |}.


(* ===================================================================== *)
(** ** Data of the server *)
(* ===================================================================== *)

(** The progress object that the encoder wrapper hands to the
    ['progress'] listener.  [timemark] is [None] when the property is
    undefined; [percent] is [Some v] exactly when
    [typeof progress.percent === 'number'].  [fields] stands for the other
    properties of the object (frames, currentFps, ...), which the server
    never reads. *)
Module Progress.
Record t := mk {
  timemark : option string;
  percent : option number;
  fields : list (string * string)
}.
End Progress.

(** What the prober reports: the container format and the streams. *)
Record Format := { duration : option Duration }.
Record Stream := { codec_type : string }.
Record Metadata := { format : option Format; streams : list Stream }.

(** The error object of the ['error'] event; [message] may be missing. *)
Record Err := { message : option string }.

Module Status.
Inductive t := queued | processing | ready | error.
End Status.

(** A value of [progressStore]: an object literal with some of these
    properties.  A property that the literal does not list is [None].
    [raw] holds the last progress argument, which may itself be
    undefined ([Some None]). *)
Record JobRecord := {
  status : Status.t;
  percent : option number;
  error : option string;
  createdAt : option string;
  startedAt : option string;
  finishedAt : option string;
  raw : option (option Progress.t)
}.

(** One call of the fluent command builder. *)
Inductive Directive :=
  | videoCodec (codec : string)
  | videoFilters (filter : string)
  | noVideo
  | audioCodec (codec : string)
  | audioBitrate (rate : string)
  | noAudio
  | outputOptions (options : list string)
  | output (target : string).

(** An encoder command that was run: its input and the builder calls made
    on it, in order, with the variables its listeners close over. *)
Record Run := {
  run_id : string;
  run_input : string;
  run_duration : option Duration;
  run_command : list Directive
}.

(** The process state the handlers act on: the in-memory store, the files
    and directories on disk, and the encoder commands started so far. *)
Record Server := {
  progressStore : gmap string JobRecord;
  files : gset string;
  dirs : gset string;
  runs : list Run
}.

Record File := { path : string; originalname : string }.
Record Request := { file : option File; protocol : string; host : string }.

(** What a property read on [progressStore] gives: nothing, a job record
    stored under that key, or a member inherited from [Object.prototype]
    ([progressStore] is created by the literal [{}]). *)
Inductive Value :=
  | undefined
  | record (r : JobRecord)
  | inherited (name : string).

(** The bodies of the answers: the JSON objects of lines 59, 184, 187,
    195 and 196, and the error page Express itself sends for an error
    that a middleware passed on. *)
Inductive Body :=
  | error_body (error : string)
  | upload_body (id manifestUrl statusUrl : string)
  | status_body (v : Value)
  | failure_body (error details : string)
  | error_page (err : string).

Record Response := { code : Z; body : Body }.

(* ===================================================================== *)
(** ** The store and the file system *)
(* ===================================================================== *)

(** The property names every object created by [{}] inherits. *)
Definition object_prototype_properties : list string :=
  [ "constructor"; "__defineGetter__"; "__defineSetter__"; "hasOwnProperty";
    "__lookupGetter__"; "__lookupSetter__"; "isPrototypeOf";
    "propertyIsEnumerable"; "toString"; "valueOf"; "__proto__";
    "toLocaleString" ]%string.

(** [progressStore[id]] as an expression: an own property wins, then the
    prototype is consulted. *)
Definition get (store : gmap string JobRecord) (id : string) : Value :=
  match store !! id with
  | Some r => record r
  | None =>
      if bool_decide (id ∈ object_prototype_properties) then inherited id
      else undefined
  end.

(** [fs.unlinkSync(p)]: removes the file, or throws ([None]) when there
    is no such file. *)
Definition unlinkSync (p : string) (fs : gset string) : option (gset string) :=
  if bool_decide (p ∈ fs) then Some (fs ∖ {[ p ]}) else None.

(** [try { fs.unlinkSync(p); } catch (e) { /* ignore */ }] *)
Definition try_unlink (p : string) (fs : gset string) : gset string :=
  match unlinkSync p fs with
  | Some fs' => fs'
  | None => fs
  end.

(** [path.join(a, b)] on paths that need no normalisation. *)
Definition path_join (a b : string) : string := a +:+ "/" +:+ b.

Definition UPLOAD_DIR (dirname : string) : string := path_join dirname "uploads".
Definition DASH_ROOT (dirname : string) : string :=
  path_join (path_join dirname "public") "dash".

(** The shape of the strings [uuidv4()] returns: 36 characters, hyphens
    at offsets 8, 13, 18 and 23, lower-case hexadecimal digits elsewhere. *)
Definition is_hex (c : ascii) : bool :=
  let n := JsString.code c in
  ((48 <=? n) && (n <=? 57)) || ((97 <=? n) && (n <=? 102)).

Fixpoint uuid_shape (i : nat) (s : string) : bool :=
  match s with
  | EmptyString => Nat.eqb i 36
  | String c r =>
      (if (Nat.eqb i 8 || Nat.eqb i 13 || Nat.eqb i 18 || Nat.eqb i 23)%bool
       then Ascii.eqb c "-" else is_hex c)
      && uuid_shape (S i) r
  end.

Definition is_uuid (s : string) : bool := uuid_shape 0 s.

(** Replacing one component of the server state. *)
Definition with_store (sv : Server) (st : gmap string JobRecord) : Server :=
  {| progressStore := st; files := files sv; dirs := dirs sv; runs := runs sv |}.

Definition with_files (sv : Server) (fs : gset string) : Server :=
  {| progressStore := progressStore sv; files := fs; dirs := dirs sv; runs := runs sv |}.

(** [progressStore[id] = r] for an [id] drawn by [uuidv4()]. *)
Definition assign (id : string) (r : JobRecord) (sv : Server) : Server :=
  with_store sv (<[ id := r ]> (progressStore sv)).

(** [progressStore[id].percent = v]: a TypeError ([None]) when there is
    no record under [id]. *)
Definition assign_percent (id : string) (v : number) (sv : Server) : option Server :=
  match progressStore sv !! id with
  | Some r =>
      Some (assign id {| status := status r; percent := Some v; error := error r;
                         createdAt := createdAt r; startedAt := startedAt r;
                         finishedAt := finishedAt r; raw := raw r |} sv)
  | None => None
  end.

(** [progressStore[id].raw = progress] *)
Definition assign_raw (id : string) (p : option Progress.t) (sv : Server) : option Server :=
  match progressStore sv !! id with
  | Some r =>
      Some (assign id {| status := status r; percent := percent r; error := error r;
                         createdAt := createdAt r; startedAt := startedAt r;
                         finishedAt := finishedAt r; raw := Some p |} sv)
  | None => None
  end.

(* ===================================================================== *)
(** ** Encoder directives (lines 90-145) *)
(* ===================================================================== *)

(** [const segDuration = 4]; [String(segDuration)] is its decimal
    numeral. *)
Definition segDuration : Z := 4.

(** [parts.push(x)] *)
Definition push (parts : list string) (x : string) : list string := parts ++ [x].

Definition adaptationSetParts (hasVideo hasAudio : bool) : list string :=
  let parts := [] in
  let parts := if hasVideo then push parts "id=0,streams=v" else parts in
  let parts := if hasAudio then push parts "id=1,streams=a" else parts in
  parts.

Definition adaptationSetsArg (hasVideo hasAudio : bool) : string :=
  JsString.join " " (adaptationSetParts hasVideo hasAudio).

Definition baseOutputOptions (hasVideo hasAudio : bool) : list string :=
  [ "-map"; "0";
    "-f"; "webm_dash_manifest";
    "-adaptation_sets"; adaptationSetsArg hasVideo hasAudio;
    "-seg_duration"; pretty segDuration;
    "-window_size"; "5";
    "-extra_window_size"; "5";
    "-use_timeline"; "1";
    "-use_template"; "1";
    "-loglevel"; "info" ]%string.

Definition command (hasVideo hasAudio : bool) (manifestPath : string) : list Directive :=
  (if hasVideo then
     [ videoCodec "libvpx-vp9"; videoFilters "scale=-2:720";
       outputOptions ["-crf"; "30"; "-b:v"; "0"; "-g"; "240";
                      "-tile-columns"; "4"; "-threads"; "8"]%string ]
   else [ noVideo ])
  ++ (if hasAudio then
        [ audioCodec "libopus"; audioBitrate "96k";
          outputOptions ["-ar"; "48000"; "-ac"; "2"]%string ]
      else [ noAudio ])
  ++ [ outputOptions (baseOutputOptions hasVideo hasAudio); output manifestPath ].

(* ===================================================================== *)
(** ** The handlers *)
(* ===================================================================== *)

(** The [try] block of the [POST /upload] handler, without the
    asynchronous probe it starts (lines 59-67, 183-184), on a request the
    transport middleware handed on and when no statement of the block
    throws.  [id] is the result of [uuidv4()] and [now] that of
    [new Date().toISOString()].  [mkdirSync] with [recursive: true]
    creates the fresh output directory under [DASH_ROOT], which exists
    since start-up.  The whole route, with the middleware and the [catch]
    clause, is [upload_route] below. *)
Definition upload (dirname : string) (req : Request) (id now : string) (sv : Server)
  : Server * Response :=
  match file req with
  | None => (sv, {| code := 400; body := error_body "no file uploaded (field name: file)" |})
  | Some f =>
      let outDir := path_join (DASH_ROOT dirname) id in
      let sv := {| progressStore := progressStore sv; files := files sv;
                   dirs := {[ outDir ]} ∪ dirs sv; runs := runs sv |} in
      let sv := assign id {| status := Status.queued; percent := Some (JsNumber.of_Z 0);
                             error := None; createdAt := Some now; startedAt := None;
                             finishedAt := None; raw := None |} sv in
      let base := protocol req +:+ "://" +:+ host req in
      (sv, {| code := 200;
              body := upload_body id (base +:+ "/dash/" +:+ id +:+ "/manifest.mpd")
                                     (base +:+ "/status/" +:+ id) |})
  end.

(** What the transport middleware of line 57, [upload.single('file')],
    makes of a request: it passes an error on (a file part under another
    field name, a file above the size limit), and Express answers that
    with status 500 without calling the handler; or it hands the request
    on, with [file] set exactly when there was a part named ["file"]. *)
Inductive Transport :=
  | refused (err : string)
  | passed (req : Request).

(** The route [POST /upload] (lines 57-67, 183-188): the middleware, then
    the handler with its [try] and [catch].  [mkdir] is how
    [fs.mkdirSync] of line 64 ends: [Some message] when it throws an error
    with that message, which happens before the record is stored. *)
Definition upload_route (dirname : string) (t : Transport) (mkdir : option string)
    (id now : string) (sv : Server) : Server * Response :=
  match t with
  | refused err => (sv, {| code := 500; body := error_page err |})
  | passed req =>
      match file req, mkdir with
      | Some _, Some message =>
          (sv, {| code := 500; body := failure_body "internal server error" message |})
      | _, _ => upload dirname req id now sv
      end
  end.

(** [streams.some(s => s.codec_type === kind)] *)
Definition has_stream (kind : string) (ss : list Stream) : bool :=
  existsb (fun s => String.eqb (codec_type s) kind) ss.

(** Line 78: the duration when it is there and truthy, else [null]. *)
Definition duration_of (metadata : Metadata) : option Duration :=
  match format metadata with
  | Some f =>
      match duration f with
      | Some d => if to_boolean d then Some d else None
      | None => None
      end
  | None => None
  end.

(** The callback given to [ffmpeg.ffprobe] (lines 70-181): [probe] is
    [inl err] when the prober failed and [inr metadata] otherwise. *)
Definition ffprobe_callback (dirname id inputPath now : string)
    (probe : string + Metadata) (sv : Server) : Server :=
  match probe with
  | inl err =>
      assign id {| status := Status.error; percent := None;
                   error := Some "Could not read video metadata."%string;
                   createdAt := None; startedAt := None; finishedAt := None;
                   raw := None |} sv
  | inr metadata =>
      let duration := duration_of metadata in
      let hasVideo := has_stream "video" (streams metadata) in
      let hasAudio := has_stream "audio" (streams metadata) in
      if negb hasVideo && negb hasAudio then
        let sv := assign id {| status := Status.error; percent := None;
                               error := Some "Input has no audio or video streams."%string;
                               createdAt := None; startedAt := None; finishedAt := None;
                               raw := None |} sv in
        with_files sv (try_unlink inputPath (files sv))
      else
        let sv := assign id {| status := Status.processing;
                               percent := Some (JsNumber.of_Z 0);
                               error := None; createdAt := None; startedAt := Some now;
                               finishedAt := None; raw := None |} sv in
        let outDir := path_join (DASH_ROOT dirname) id in
        let manifestPath := path_join outDir "manifest.mpd" in
        {| progressStore := progressStore sv; files := files sv; dirs := dirs sv;
           runs := runs sv ++ [ {| run_id := id; run_input := inputPath;
                                   run_duration := duration;
                                   run_command := command hasVideo hasAudio manifestPath |} ] |}
  end.

(** The time marker the first branch of the ['progress'] listener works
    on: [Some (d, tm)] exactly when [duration && progress &&
    progress.timemark] is truthy. *)
Definition timed `{Operand D} (duration : option D) (progress : option Progress.t)
  : option (D * string) :=
  match duration, progress with
  | Some d, Some p =>
      if to_boolean d then
        match Progress.timemark p with
        | Some EmptyString | None => None
        | Some tm => Some (d, tm)
        end
      else None
  | _, _ => None
  end.

(** The ['progress'] listener (lines 153-167), for a [duration] of any
    type of values: a Number, or what the prober reported. *)
Definition on_progress `{Operand D} (duration : option D) (id : string)
    (progress : option Progress.t) (sv : Server) : option Server :=
  let updated :=
    match timed duration progress with
    | Some (d, tm) =>
        let parts := JsString.split ":" tm in
        if Nat.eqb (List.length parts) 3 then
          let secs :=
            JsNumber.add
              (JsNumber.add
                 (JsNumber.mul (JsString.parseInt (nth 0 parts EmptyString)) (JsNumber.of_Z 3600))
                 (JsNumber.mul (JsString.parseInt (nth 1 parts EmptyString)) (JsNumber.of_Z 60)))
              (JsString.parseFloat (nth 2 parts EmptyString)) in
          let percent :=
            JsNumber.min (JsNumber.of_Z 100)
              (JsNumber.floor
                 (JsNumber.mul (JsNumber.div secs (to_number d)) (JsNumber.of_Z 100))) in
          assign_percent id percent sv
        else Some sv
    | None =>
        match progress with
        | Some p =>
            match Progress.percent p with
            | Some v =>
                assign_percent id
                  (JsNumber.min (JsNumber.of_Z 100) (JsNumber.floor v)) sv
            | None => Some sv
            end
        | None => Some sv
        end
    end in
  match updated with
  | Some sv' => assign_raw id progress sv'
  | None => None
  end.

(** The ['error'] listener (lines 168-174); the error property is
    [err && err.message]. *)
Definition on_error (id inputPath : string) (err : option Err) (sv : Server) : Server :=
  let sv := assign id {| status := Status.error; percent := None;
                         error := match err with Some e => message e | None => None end;
                         createdAt := None; startedAt := None; finishedAt := None;
                         raw := None |} sv in
  with_files sv (try_unlink inputPath (files sv)).

(** The ['end'] listener (lines 175-179). *)
Definition on_end (id inputPath now : string) (sv : Server) : Server :=
  let sv := assign id {| status := Status.ready; percent := Some (JsNumber.of_Z 100);
                         error := None; createdAt := None; startedAt := None;
                         finishedAt := Some now; raw := None |} sv in
  with_files sv (try_unlink inputPath (files sv)).

(** [GET /status/:id] (lines 192-197).  Every inherited member is an
    object or a function, hence truthy. *)
Definition status_handler (id : string) (sv : Server) : Response :=
  match get (progressStore sv) id with
  | undefined => {| code := 404; body := error_body "id not found" |}
  | v => {| code := 200; body := status_body v |}
  end.

(** What the encoder wrapper emits for one command, and the listener
    each event reaches (the ['start'] and ['stderr'] listeners only
    log). *)
Inductive Event :=
  | ev_progress (progress : option Progress.t)
  | ev_error (err : option Err)
  | ev_end (now : string).

Definition listen (r : Run) (e : Event) (sv : Server) : option Server :=
  match e with
  | ev_progress p => on_progress (run_duration r) (run_id r) p sv
  | ev_error err => Some (on_error (run_id r) (run_input r) err sv)
  | ev_end now => Some (on_end (run_id r) (run_input r) now sv)
  end.

(** The listeners run one after the other, in the order of the events;
    an exception in one of them ends the sequence. *)
Fixpoint listen_all (r : Run) (es : list Event) (sv : Server) : option Server :=
  match es with
  | [] => Some sv
  | e :: es' =>
      match listen r e sv with
      | Some sv' => listen_all r es' sv'
      | None => None
      end
  end.

(** The percent a reader of the store sees for [id]. *)
Definition stored_percent (id : string) (sv : Server) : option number :=
  match progressStore sv !! id with
  | Some r => percent r
  | None => None
  end.

(* ===================================================================== *)
(** ** The progress interpreter in the words of the specification *)
(* ===================================================================== *)

Module Interpreter.

(** Seconds denoted by the three fields of an [HH:MM:SS(.frac)] marker. *)
Definition elapsedSeconds (hh mm ss : string) : number :=
  JsNumber.add
    (JsNumber.add (JsNumber.mul (JsString.parseInt hh) (JsNumber.of_Z 3600))
                  (JsNumber.mul (JsString.parseInt mm) (JsNumber.of_Z 60)))
    (JsString.parseFloat ss).

(** The time marker of an event, when there is a non-empty one. *)
Definition marker (progress : option Progress.t) : option string :=
  match progress with
  | Some p =>
      match Progress.timemark p with
      | Some EmptyString => None
      | m => m
      end
  | None => None
  end.

(** The total duration, when it is known: present, not zero, not NaN
    (present and truthy, for a duration that need not be a Number). *)
Definition known `{Operand D} (duration : option D) : option D :=
  match duration with
  | Some d => if to_boolean d then Some d else None
  | None => None
  end.

(** The direct percent value of an event, when there is one. *)
Definition direct (progress : option Progress.t) : option number :=
  match progress with
  | Some p => Progress.percent p
  | None => None
  end.

(** The percent one event is interpreted as; [None] is "no update".
    A marker takes precedence over a direct value whenever the duration
    is known, whether or not the marker has three fields. *)
Definition interpret `{Operand D} (duration : option D) (progress : option Progress.t)
  : option number :=
  match known duration, marker progress with
  | Some d, Some tm =>
      match JsString.split ":" tm with
      | [hh; mm; ss] =>
          Some (JsNumber.min (JsNumber.of_Z 100)
                  (JsNumber.floor
                     (JsNumber.mul (JsNumber.div (elapsedSeconds hh mm ss) (to_number d))
                                   (JsNumber.of_Z 100))))
      | _ => None
      end
  | _, _ =>
      match direct progress with
      | Some v => Some (JsNumber.min (JsNumber.of_Z 100) (JsNumber.floor v))
      | None => None
      end
  end.

(** The stored percent after an event, given the one before it. *)
Definition update `{Operand D} (duration : option D) (progress : option Progress.t)
    (previous : option number) : option number :=
  match interpret duration progress with
  | Some v => Some v
  | None => previous
  end.

(** The stored percent after a sequence of events: the last
    interpreted value, or the initial one. *)
Definition replay `{Operand D} (duration : option D) (events : list (option Progress.t))
    (initial : option number) : option number :=
  fold_left (fun stored p => update duration p stored) events initial.

(** A string of one or more decimal digits. *)
Definition all_digits (s : string) : bool :=
  match JsString.digits s with
  | (_ :: _, EmptyString) => true
  | _ => false
  end.

(** Seconds with an optional fraction: [SS] or [SS.frac]. *)
Definition seconds_field (s : string) : bool :=
  match JsString.split "." s with
  | [w] => all_digits w
  | [w; f] => all_digits w && all_digits f
  | _ => false
  end.

(** A marker of the form [HH:MM:SS(.frac)]. *)
Definition well_formed (tm : string) : bool :=
  match JsString.split ":" tm with
  | [hh; mm; ss] => all_digits hh && all_digits mm && seconds_field ss
  | _ => false
  end.

(** The interpreter as the three sentences of section 4.4 are read when
    "a time marker is present" means "a well-formed one is": a direct
    value is used whenever no well-formed marker is. *)
Definition as_claimed (duration : option number) (progress : option Progress.t)
    (previous : option number) : option number :=
  let timed :=
    match known duration, marker progress with
    | Some d, Some tm =>
        if well_formed tm then
          match JsString.split ":" tm with
          | [hh; mm; ss] =>
              Some (JsNumber.floor
                      (JsNumber.min (JsNumber.of_Z 100)
                         (JsNumber.div
                            (JsNumber.mul (JsNumber.of_Z 100) (elapsedSeconds hh mm ss))
                            d)))
          | _ => None
          end
        else None
    | _, _ => None
    end in
  match timed with
  | Some v => Some v
  | None =>
      match direct progress with
      | Some v => Some (JsNumber.floor (JsNumber.min (JsNumber.of_Z 100) v))
      | None => previous
      end
  end.

(** Between 0 and 100, bounds included. *)
Definition in_range (v : number) : bool :=
  JsNumber.leb (JsNumber.of_Z 0) v && JsNumber.leb v (JsNumber.of_Z 100).

(** An integer between 0 and 100. *)
Definition is_percent (v : number) : Prop :=
  in_range v = true /\ exists n : Z, v = JsNumber.of_Z n.

(** The values [Math.floor] can return besides NaN and [+Infinity]:
    the Number of an integer, negative zero, or [-Infinity]. *)
Definition whole (v : number) : Prop :=
  (exists n : Z, v = JsNumber.of_Z n) \/ v = S754_zero true \/ v = S754_infinity true.

End Interpreter.

(** The record a progress event leaves behind: the percent as
    interpreted, the event itself under [raw], everything else as it was. *)
Definition after_progress `{Operand D} (duration : option D) (progress : option Progress.t)
    (r : JobRecord) : JobRecord :=
  {| status := status r;
     percent := Interpreter.update duration progress (percent r);
     error := error r;
     createdAt := createdAt r; startedAt := startedAt r; finishedAt := finishedAt r;
     raw := Some progress |}.

(* ===================================================================== *)
(** ** Timestamps of a record *)
(* ===================================================================== *)

(** The three timestamps a record carries. *)
Definition timestamps (r : JobRecord) : option string * option string * option string :=
  (createdAt r, startedAt r, finishedAt r).




(* ===================================================================== *)
(** ** Directive strings *)
(* ===================================================================== *)

(** The entries the specification asks for: set 0 with the video stream
    when there is video, then set 1 with the audio stream when there is
    audio. *)
Definition entries_for (hasVideo hasAudio : bool) : list string :=
  (if hasVideo then ["id=0,streams=v"%string] else [])
  ++ (if hasAudio then ["id=1,streams=a"%string] else []).

(** How many media types are present. *)
Definition present (hasVideo hasAudio : bool) : nat :=
  (if hasVideo then 1 else 0)%nat + (if hasAudio then 1 else 0)%nat.

(** Number of occurrences of a character. *)
Fixpoint occurrences (c : ascii) (s : string) : nat :=
  match s with
  | EmptyString => 0%nat
  | String c' r => ((if Ascii.eqb c c' then 1 else 0) + occurrences c r)%nat
  end.

(* ===================================================================== *)
(** ** A concrete job *)
(* ===================================================================== *)

Module Sample.

Definition dirname : string := "/srv/app".
Definition id : string := "3f2b8c1e-7d4a-4e5b-9a6c-0d1e2f3a4b5c".
Definition inputPath : string := path_join (UPLOAD_DIR dirname) "1700000000000-42.mp4".

Definition request : Request :=
  {| file := Some {| path := inputPath; originalname := "clip.mp4" |};
     protocol := "http"; host := "localhost:3000" |}.

(** A fresh server holding the upload that the transport just wrote. *)
Definition fresh : Server :=
  {| progressStore := ∅; files := {[ inputPath ]}; dirs := ∅; runs := [] |}.

(** After [POST /upload]. *)
Definition queued : Server := fst (upload dirname request id "T0" fresh).

(** A 100-second input with one video and one audio stream. *)
Definition metadata : Metadata :=
  {| format := Some {| duration := Some (seconds (JsNumber.of_Z 100)) |};
     streams := [ {| codec_type := "video" |}; {| codec_type := "audio" |} ] |}.

(** After the prober answered with [metadata]. *)
Definition processing : Server :=
  ffprobe_callback dirname id inputPath "T1" (inr metadata) queued.

(** After the prober failed. *)
Definition probe_failed : Server :=
  ffprobe_callback dirname id inputPath "T1" (inl "ENOENT"%string) queued.

Definition at_time (tm : string) : option Progress.t :=
  Some (Progress.mk (Some tm) None []).


Definition the_run : Run :=
  {| run_id := id; run_input := inputPath;
     run_duration := Some (seconds (JsNumber.of_Z 100));
     run_command :=
       command true true (path_join (path_join (DASH_ROOT dirname) id) "manifest.mpd") |}.

End Sample.


(* ===================================================================== *)
(** ** Jobs, options and the server as a transition system *)
(* ===================================================================== *)

(** Syntactic equality of numbers is decidable. *)
#[local] Instance number_eq_dec : EqDecision spec_float.
Proof. solve_decision. Defined.

(** The output directory and the manifest file of a job (lines 63, 91). *)
Definition outDir (dirname id : string) : string := path_join (DASH_ROOT dirname) id.

Definition manifestPath (dirname id : string) : string :=
  path_join (outDir dirname id) "manifest.mpd".

(** The classification lets the job proceed: the test of line 82 fails. *)
Definition usable (metadata : Metadata) : bool :=
  has_stream "video" (streams metadata) || has_stream "audio" (streams metadata).

(** The encoder run that a successful probe of [metadata] starts. *)
Definition run_of (dirname id inputPath : string) (metadata : Metadata) : Run :=
  {| run_id := id; run_input := inputPath;
     run_duration := duration_of metadata;
     run_command := command (has_stream "video" (streams metadata))
                            (has_stream "audio" (streams metadata))
                            (manifestPath dirname id) |}.

(** The value that follows [flag] in a list of flag/value options. *)
Fixpoint option_value (flag : string) (options : list string) : option string :=
  match options with
  | k :: v :: rest => if String.eqb k flag then Some v else option_value flag rest
  | _ => None
  end.

(** The clamp both branches of the ['progress'] listener apply. *)
Definition clamp (x : number) : number :=
  JsNumber.min (JsNumber.of_Z 100) (JsNumber.floor x).

(** What can happen to the server: a request to [POST /upload], the
    answer of the prober for a job, an event of an encoder run. *)
Inductive Action :=
  | upload_request (req : Request) (id now : string)
  | probe_result (id inputPath now : string) (probe : string + Metadata)
  | encoder_event (run : Run) (e : Event).

(** The job an action belongs to. *)
Definition action_id (a : Action) : string :=
  match a with
  | upload_request _ id _ => id
  | probe_result id _ _ _ => id
  | encoder_event run _ => run_id run
  end.

(** The upload an action may remove from disk. *)
Definition action_input (a : Action) : option string :=
  match a with
  | upload_request _ _ _ => None
  | probe_result _ inputPath _ _ => Some inputPath
  | encoder_event run _ => Some (run_input run)
  end.

(** The handler an action runs; [None] when it throws. *)
Definition perform (dirname : string) (a : Action) (sv : Server) : option Server :=
  match a with
  | upload_request req id now => Some (fst (upload dirname req id now sv))
  | probe_result id inputPath now probe =>
      Some (ffprobe_callback dirname id inputPath now probe sv)
  | encoder_event run e => listen run e sv
  end.

(** Only runs that were started emit events. *)
Definition enabled (a : Action) (sv : Server) : Prop :=
  match a with
  | encoder_event run _ => run ∈ runs sv
  | _ => True
  end.

(** The states the server can get to from [sv0]. *)
Inductive reaches (dirname : string) (sv0 : Server) : Server -> Prop :=
  | reaches_here : reaches dirname sv0 sv0
  | reaches_step (sv sv' : Server) (a : Action) :
      reaches dirname sv0 sv -> enabled a sv -> perform dirname a sv = Some sv' ->
      reaches dirname sv0 sv'.


(** Every started run has a record under its identifier. *)
Definition runs_have_records (sv : Server) : Prop :=
  forall run : Run, run ∈ runs sv -> is_Some (progressStore sv !! run_id run).

(* ===================================================================== *)
(** ** File extensions and the static middleware (lines 46-54) *)
(* ===================================================================== *)

(** [path.extname] on POSIX paths: the loop runs from the last character
    to the first, with the five variables of the library function;
    [-1] stands for "not seen yet". *)
Module Path.

Record State := {
  startDot : Z;
  startPart : Z;
  end_ : Z;
  matchedSlash : bool;
  preDotState : Z
}.

Definition initial : State :=
  {| startDot := -1; startPart := 0; end_ := -1; matchedSlash := true; preDotState := 0 |}.

(** One round of the loop, at index [i] on character [c]; the flag says
    whether the loop breaks. *)
Definition step (i : Z) (c : ascii) (st : State) : State * bool :=
  if Ascii.eqb c "/" then
    if negb (matchedSlash st) then
      ({| startDot := startDot st; startPart := i + 1; end_ := end_ st;
          matchedSlash := matchedSlash st; preDotState := preDotState st |}, true)
    else (st, false)
  else
    let st :=
      if end_ st =? -1 then
        {| startDot := startDot st; startPart := startPart st; end_ := i + 1;
           matchedSlash := false; preDotState := preDotState st |}
      else st in
    if Ascii.eqb c "." then
      if startDot st =? -1 then
        ({| startDot := i; startPart := startPart st; end_ := end_ st;
            matchedSlash := matchedSlash st; preDotState := preDotState st |}, false)
      else if negb (preDotState st =? 1) then
        ({| startDot := startDot st; startPart := startPart st; end_ := end_ st;
            matchedSlash := matchedSlash st; preDotState := 1 |}, false)
      else (st, false)
    else if negb (startDot st =? -1) then
      ({| startDot := startDot st; startPart := startPart st; end_ := end_ st;
          matchedSlash := matchedSlash st; preDotState := -1 |}, false)
    else (st, false).

(** The loop from index [i] down, on the characters at [i], [i-1], ...
    in that order. *)
Fixpoint loop (chars : list ascii) (i : Z) (st : State) : State :=
  match chars with
  | [] => st
  | c :: rest =>
      let '(st', stop) := step i c st in
      if stop then st' else loop rest (i - 1) st'
  end.

(** [path.slice(from, to)] for [0 <= from <= to <= path.length]. *)
Definition slice (path : string) (from to : Z) : string :=
  String.substring (Z.to_nat from) (Z.to_nat (to - from)) path.

Definition extname (path : string) : string :=
  let st := loop (rev (list_ascii_of_string path))
                 (Z.of_nat (String.length path) - 1) initial in
  if (startDot st =? -1) || (end_ st =? -1) || (preDotState st =? 0)
     || ((preDotState st =? 1) && (startDot st =? end_ st - 1)
         && (startDot st =? startPart st + 1))
  then EmptyString
  else slice path (startDot st) (end_ st).

End Path.

(** The [setHeaders] hook given to the static middleware: the headers it
    sets on the response for the file at [filePath]. *)
Definition setHeaders (filePath : string) : list (string * string) :=
  if String.eqb (Path.extname filePath) ".mpd"
  then [("Content-Type", "application/dash+xml")]%string
  else [].

(* ===================================================================== *)
(** * Properties *)
(* ===================================================================== *)

(** ** The store *)

Section Store.
Implicit Types (sv : Server) (id : string) (r : JobRecord).

Lemma lookup_assign id r sv : progressStore (assign id r sv) !! id = Some r.
Proof. unfold assign, with_store; cbn. apply lookup_insert_eq. Qed.

Lemma lookup_assign_ne id id' r sv :
  id ≠ id' → progressStore (assign id r sv) !! id' = progressStore sv !! id'.
Proof. intros Hne. unfold assign, with_store; cbn. by apply lookup_insert_ne. Qed.

Lemma assign_assign id r r' sv : assign id r' (assign id r sv) = assign id r' sv.
Proof. unfold assign, with_store; cbn. f_equal. apply insert_insert_eq. Qed.

Lemma files_assign id r sv : files (assign id r sv) = files sv.
Proof. reflexivity. Qed.

Lemma runs_assign id r sv : runs (assign id r sv) = runs sv.
Proof. reflexivity. Qed.

Lemma stored_percent_assign id r sv : stored_percent id (assign id r sv) = percent r.
Proof. unfold stored_percent. by rewrite lookup_assign. Qed.

(** After the guarded unlink the file is gone, whether or not it was
    there, and no other file is touched. *)
Lemma try_unlink_spec (p : string) (fs : gset string) : try_unlink p fs = fs ∖ {[ p ]}.
Proof.
  unfold try_unlink, unlinkSync.
  destruct (decide (p ∈ fs)) as [Hin | Hin].
  - by rewrite bool_decide_eq_true_2.
  - rewrite bool_decide_eq_false_2 by done.
    apply set_eq; intros x. rewrite elem_of_difference, elem_of_singleton.
    split; [intros Hx; split; [done | by intros ->] | by intros [? _]].
Qed.

(** A v4 UUID is never the name of an inherited member, so reading it
    from the store is an own-property read. *)
Lemma uuid_not_inherited id : is_uuid id = true → id ∉ object_prototype_properties.
Proof.
  intros Hu Hin. unfold object_prototype_properties in Hin.
  repeat (apply elem_of_cons in Hin; destruct Hin as [-> | Hin];
          [vm_compute in Hu; discriminate |]).
  by apply elem_of_nil in Hin.
Qed.

Lemma get_uuid (store : gmap string JobRecord) id :
  is_uuid id = true →
  get store id = match store !! id with Some r => record r | None => undefined end.
Proof.
  intros Hu. unfold get. destruct (store !! id); [done |].
  case_bool_decide as Hin; [| done]. by apply uuid_not_inherited in Hin.
Qed.

Lemma get_own (store : gmap string JobRecord) id r :
  store !! id = Some r → get store id = record r.
Proof. intros H. unfold get. by rewrite H. Qed.

Lemma status_handler_own id r sv :
  progressStore sv !! id = Some r →
  status_handler id sv = {| code := 200; body := status_body (record r) |}.
Proof. intros H. unfold status_handler. by rewrite (get_own _ _ _ H). Qed.

Lemma status_handler_unissued_uuid id sv :
  is_uuid id = true → progressStore sv !! id = None →
  status_handler id sv = {| code := 404; body := error_body "id not found" |}.
Proof.
  intros Hu H. unfold status_handler. by rewrite (get_uuid _ _ Hu), H.
Qed.

Lemma status_handler_unknown id sv :
  progressStore sv !! id = None → id ∉ object_prototype_properties →
  status_handler id sv = {| code := 404; body := error_body "id not found" |}.
Proof.
  intros H Hn. unfold status_handler, get. rewrite H.
  by rewrite bool_decide_eq_false_2.
Qed.
End Store.

(** ** The progress listener *)

Section Progress.
Implicit Types (sv : Server) (id : string) (r : JobRecord)
  (progress : option Progress.t).

(** The guard of the first branch, in the interpreter's terms. *)
Lemma timed_known_marker `{Operand D} (duration : option D) progress :
  timed duration progress =
  match Interpreter.known duration, Interpreter.marker progress with
  | Some d, Some tm => Some (d, tm)
  | _, _ => None
  end.
Proof.
  unfold timed, Interpreter.known, Interpreter.marker.
  destruct duration as [d|]; [| done].
  destruct (to_boolean d); destruct progress as [p|]; try done.
  destruct (Progress.timemark p) as [[|c tm]|]; done.
Qed.

(** The listener, on a job that has a record, rewrites that record to
    [after_progress] and touches nothing else. *)
Lemma on_progress_record `{Operand D} (duration : option D) id progress sv r :
  progressStore sv !! id = Some r →
  on_progress duration id progress sv
  = Some (assign id (after_progress duration progress r) sv).
Proof.
  intros Hr. unfold on_progress, after_progress, Interpreter.update, Interpreter.interpret.
  rewrite timed_known_marker.
  destruct (Interpreter.known duration) as [d|], (Interpreter.marker progress) as [tm|].
  - destruct (JsString.split ":" tm) as [|hh [|mm [|ss [|x parts]]]];
      cbn [List.length Nat.eqb nth];
      unfold assign_percent, assign_raw; rewrite ?Hr, ?lookup_assign, ?assign_assign;
      reflexivity.
  - unfold Interpreter.direct. destruct progress as [p|]; [destruct (Progress.percent p) |];
      unfold assign_percent, assign_raw; rewrite ?Hr, ?lookup_assign, ?assign_assign;
      reflexivity.
  - unfold Interpreter.direct. destruct progress as [p|]; [destruct (Progress.percent p) |];
      unfold assign_percent, assign_raw; rewrite ?Hr, ?lookup_assign, ?assign_assign;
      reflexivity.
  - unfold Interpreter.direct. destruct progress as [p|]; [destruct (Progress.percent p) |];
      unfold assign_percent, assign_raw; rewrite ?Hr, ?lookup_assign, ?assign_assign;
      reflexivity.
Qed.

(** Without a record the listener throws. *)
Lemma on_progress_no_record `{Operand D} (duration : option D) id progress sv :
  progressStore sv !! id = None → on_progress duration id progress sv = None.
Proof.
  intros Hr. unfold on_progress.
  destruct (timed duration progress) as [[d tm]|].
  - destruct (Nat.eqb _ 3); unfold assign_percent, assign_raw; by rewrite Hr.
  - destruct progress as [p|]; [destruct (Progress.percent p) |];
      unfold assign_percent, assign_raw; by rewrite Hr.
Qed.
End Progress.

(** ** Numbers *)

Section Numbers.
Implicit Types (x y v : number).

(** Comparing the other way round gives the opposite answer. *)
Lemma SFcompare_swap x y c :
  SFcompare x y = Some c → SFcompare y x = Some (CompOpp c).
Proof.
  destruct x as [sx|sx| |sx mx ex], y as [sy|sy| |sy my ey]; cbn;
    try discriminate; try (destruct sx); try (destruct sy);
    intros [= <-]; try reflexivity.
  - rewrite (Z.compare_antisym ex ey).
    destruct (ex ?= ey); cbn; try reflexivity.
    by rewrite (Pos.compare_cont_antisym mx my Eq).
  - rewrite (Z.compare_antisym ex ey).
    destruct (ex ?= ey); cbn; try reflexivity.
    by rewrite (Pos.compare_cont_antisym mx my Eq).
Qed.

Lemma ltb_leb x y : JsNumber.ltb x y = true → JsNumber.leb x y = true.
Proof.
  unfold JsNumber.ltb, JsNumber.leb, SFltb, SFleb.
  by destruct (SFcompare x y) as [[]|].
Qed.

(** [Math.min(100, y)] is NaN, or 100, or [y] itself when [y < 100]. *)
Lemma min_100_cases y :
  JsNumber.min (JsNumber.of_Z 100) y = JsNumber.NaN
  ∨ JsNumber.min (JsNumber.of_Z 100) y = JsNumber.of_Z 100
  ∨ (JsNumber.min (JsNumber.of_Z 100) y = y ∧ JsNumber.ltb y (JsNumber.of_Z 100) = true).
Proof.
  unfold JsNumber.min.
  destruct (SFcompare (JsNumber.of_Z 100) y) as [c|] eqn:Hc; [| by left].
  destruct c.
  - destruct y as [[|]| | |]; try (right; left; reflexivity).
    vm_compute in Hc. discriminate.
  - right; left; reflexivity.
  - right; right. split; [reflexivity |].
    apply SFcompare_swap in Hc. unfold JsNumber.ltb, SFltb. by rewrite Hc.
Qed.

(** [Math.floor] returns NaN, [+Infinity], or a whole number. *)
Lemma floor_cases x :
  JsNumber.floor x = JsNumber.NaN
  ∨ JsNumber.floor x = S754_infinity false
  ∨ Interpreter.whole (JsNumber.floor x).
Proof.
  destruct x as [[|]|[|]| |s m e]; cbn.
  - right; right; right; left; reflexivity.
  - right; right; left; exists 0; reflexivity.
  - right; right; right; right; reflexivity.
  - right; left; reflexivity.
  - left; reflexivity.
  - right; right; left; eexists; reflexivity.
Qed.

(** The clamp of the listener never exceeds 100 and, unless it is NaN,
    is a whole number. *)
Lemma clamp_range x :
  let v := JsNumber.min (JsNumber.of_Z 100) (JsNumber.floor x) in
  v = JsNumber.NaN
  ∨ (JsNumber.leb v (JsNumber.of_Z 100) = true ∧ Interpreter.whole v).
Proof.
  cbn zeta.
  destruct (min_100_cases (JsNumber.floor x)) as [-> | [-> | [Hv Hlt]]].
  - by left.
  - right. split; [by vm_compute | left; by exists 100].
  - rewrite Hv. destruct (floor_cases x) as [Hf | [Hf | Hf]].
    + left. exact Hf.
    + rewrite Hf in Hlt. vm_compute in Hlt. discriminate.
    + right. split; [by apply ltb_leb | exact Hf].
Qed.

(** *** Signs through rounding *)

Lemma shr_1_nonneg (mrs : shr_record) : 0 ≤ shr_m mrs → 0 ≤ shr_m (shr_1 mrs).
Proof. destruct mrs as [[|[p|p|]|[p|p|]] r s]; cbn; lia. Qed.

Lemma iter_pos_invariant {A : Type} (P : A → Prop) (f : A → A) :
  (∀ a, P a → P (f a)) → ∀ (p : positive) (a : A), P a → P (SpecFloat.iter_pos f p a).
Proof. intros Hf. induction p as [p IH | p IH |]; cbn; auto. Qed.

Lemma shr_fexp_nonneg (m e : Z) (l : location) :
  0 ≤ m → 0 ≤ shr_m (fst (shr_fexp JsNumber.prec JsNumber.emax m e l)).
Proof.
  intros Hm. unfold shr_fexp, shr.
  assert (H0 : 0 ≤ shr_m (shr_record_of_loc m l)) by (by destruct l as [|[]]).
  destruct (fexp _ _ _ - e) as [|p|p]; cbn [fst]; try exact H0.
  by apply (iter_pos_invariant (λ mrs, 0 ≤ shr_m mrs) shr_1 shr_1_nonneg).
Qed.

Lemma round_nearest_even_nonneg (m : Z) (l : location) :
  0 ≤ m → 0 ≤ round_nearest_even m l.
Proof.
  intros Hm. destruct l as [|[]]; cbn; try lia. destruct (Z.even m); lia.
Qed.

(** Rounding a non-negative mantissa with a clear sign bit gives a
    non-negative number, never NaN. *)
Lemma binary_round_aux_nonneg (m e : Z) (l : location) :
  0 ≤ m →
  JsNumber.nonneg (binary_round_aux JsNumber.prec JsNumber.emax false m e l) = true.
Proof.
  intros Hm. unfold binary_round_aux.
  pose proof (shr_fexp_nonneg m e l Hm) as H1.
  destruct (shr_fexp JsNumber.prec JsNumber.emax m e l) as [mrs' e'].
  cbn [fst] in H1.
  pose proof (shr_fexp_nonneg _ e' loc_Exact
                (round_nearest_even_nonneg _ (loc_of_shr_record mrs') H1)) as H2.
  destruct (shr_fexp JsNumber.prec JsNumber.emax _ e' loc_Exact) as [mrs'' e''].
  cbn [fst] in H2.
  destruct (shr_m mrs'') as [|p|p]; [done | | lia].
  by destruct (e'' <=? _).
Qed.

Lemma binary_round_nonneg (m : positive) (e : Z) :
  JsNumber.nonneg (binary_round JsNumber.prec JsNumber.emax false m e) = true.
Proof.
  unfold binary_round. destruct (shl_align m e _) as [mz ez].
  by apply binary_round_aux_nonneg.
Qed.

Lemma of_Z_nonneg (n : Z) : 0 ≤ n → JsNumber.nonneg (JsNumber.of_Z n) = true.
Proof.
  intros Hn. unfold JsNumber.of_Z, binary_normalize.
  destruct n as [|p|p]; [done | apply binary_round_nonneg | lia].
Qed.

Lemma mul_nonneg (x y : number) :
  JsNumber.nonneg x = true → JsNumber.positive_finite y = true →
  JsNumber.nonneg (JsNumber.mul x y) = true.
Proof.
  destruct x as [[|]|[|]| |[|] mx ex], y as [[|]|[|]| |[|] my ey]; try discriminate;
    intros _ _; try reflexivity.
  unfold JsNumber.mul, SFmul. by apply binary_round_aux_nonneg.
Qed.

Lemma add_nonneg (x y : number) :
  JsNumber.nonneg x = true → JsNumber.nonneg y = true →
  JsNumber.nonneg (JsNumber.add x y) = true.
Proof.
  destruct x as [[|]|[|]| |[|] mx ex], y as [[|]|[|]| |[|] my ey]; try discriminate;
    intros _ _; try reflexivity.
  unfold JsNumber.add, SFadd. cbn [cond_Zopp].
  destruct (shl_align mx ex _) as [m1 e1], (shl_align my ey _) as [m2 e2]. cbn [fst].
  apply binary_round_nonneg.
Qed.

Lemma div_nonneg (x y : number) :
  JsNumber.nonneg x = true → JsNumber.positive_finite y = true →
  JsNumber.nonneg (JsNumber.div x y) = true.
Proof.
  destruct x as [[|]|[|]| |[|] mx ex], y as [[|]|[|]| |[|] my ey]; try discriminate;
    intros _ _; try reflexivity.
  unfold JsNumber.div, SFdiv, SFdiv_core_binary.
  set (m' := match _ with Z0 => _ | Zpos _ => Z.shiftl _ _ | Zneg _ => _ end).
  assert (Hm' : 0 ≤ m').
  { subst m'. destruct (_ - _ - _) as [|p|p]; try lia. apply Z.shiftl_nonneg. lia. }
  pose proof (Z.div_eucl_eq m' (Z.pos my) ltac:(lia)) as Heq.
  pose proof (Z.mod_pos_bound m' (Z.pos my) ltac:(lia)) as Hmod.
  unfold Z.modulo in Hmod.
  destruct (Z.div_eucl m' (Z.pos my)) as [q r].
  apply binary_round_aux_nonneg. nia.
Qed.

Lemma floorZ_nonneg (m : positive) (e : Z) : 0 ≤ JsNumber.floorZ false m e.
Proof.
  unfold JsNumber.floorZ. cbn [cond_Zopp].
  destruct (0 <=? e) eqn:He.
  - apply Z.leb_le in He. apply Z.mul_nonneg_nonneg; [lia |]. by apply Z.pow_nonneg.
  - apply Z.leb_gt in He. apply Z.div_pos; [lia |]. apply Z.pow_pos_nonneg; lia.
Qed.

(** The floor of a non-negative number is [+Infinity] or the Number of a
    natural number. *)
Lemma floor_nonneg (x : number) :
  JsNumber.nonneg x = true →
  JsNumber.floor x = S754_infinity false
  ∨ (JsNumber.nonneg (JsNumber.floor x) = true ∧ ∃ n : Z, JsNumber.floor x = JsNumber.of_Z n).
Proof.
  destruct x as [[|]|[|]| |[|] m e]; try discriminate; intros _.
  - right. split; [done | by exists 0].
  - by left.
  - right. cbn [JsNumber.floor]. split; [apply of_Z_nonneg, floorZ_nonneg | by eexists].
Qed.

Lemma leb_zero_nonneg (y : number) :
  JsNumber.nonneg y = true → JsNumber.leb (JsNumber.of_Z 0) y = true.
Proof. by destruct y as [[|]|[|]| |[|] m e]. Qed.

Lemma hundred : JsNumber.of_Z 100 = S754_finite false 7036874417766400 (-46).
Proof. by vm_compute. Qed.

Lemma min_100_not_nan (y : number) :
  JsNumber.nonneg y = true → JsNumber.min (JsNumber.of_Z 100) y ≠ JsNumber.NaN.
Proof.
  rewrite hundred. unfold JsNumber.min.
  destruct y as [[|]|[|]| |[|] m e]; try discriminate; intros _;
    unfold SFcompare; try discriminate.
  destruct (-46 ?= e); try discriminate.
  destruct (Pos.compare_cont Eq 7036874417766400 m); discriminate.
Qed.

(** On a non-negative argument the clamp of the listener is an integer
    between 0 and 100. *)
Lemma clamp_percent (x : number) :
  JsNumber.nonneg x = true →
  Interpreter.is_percent (JsNumber.min (JsNumber.of_Z 100) (JsNumber.floor x)).
Proof.
  intros Hx. unfold Interpreter.is_percent, Interpreter.in_range.
  destruct (floor_nonneg x Hx) as [-> | [Hy [n Hn]]].
  - split; [by vm_compute | by exists 100].
  - destruct (min_100_cases (JsNumber.floor x)) as [Hm | [Hm | [Hm Hlt]]].
    + by apply min_100_not_nan in Hm.
    + rewrite Hm. split; [by vm_compute | by exists 100].
    + rewrite Hm. split; [| by exists n].
      by rewrite (leb_zero_nonneg _ Hy), (ltb_leb _ _ Hlt).
Qed.
End Numbers.

(** ** Reading numbers from strings *)

Section Parsing.
Implicit Types (s r : string) (c : ascii) (d : Z).

(** A digit is not white space, not a sign, and not the start of
    ["Infinity"]. *)
Lemma digit_char c d :
  JsString.digit c = Some d →
  JsString.is_white_space c = false
  ∧ Ascii.eqb c "-" = false ∧ Ascii.eqb c "+" = false ∧ c ≠ "I"%char ∧ 0 ≤ d.
Proof.
  destruct c as [[] [] [] [] [] [] [] []]; vm_compute; try discriminate;
    intros [= <-]; repeat split; discriminate.
Qed.

Lemma digits_nonneg s : Forall (λ d, 0 ≤ d) (JsString.digits s).1.
Proof.
  induction s as [|c s IH]; cbn [JsString.digits]; [by apply Forall_nil |].
  destruct (JsString.digit c) as [d|] eqn:Hd; [| by apply Forall_nil].
  destruct (JsString.digits s) as [ds rest]. cbn [fst] in *.
  apply Forall_cons. split; [by apply (digit_char c d) | exact IH].
Qed.

Lemma fold_digits_nonneg (ds : list Z) :
  Forall (λ d, 0 ≤ d) ds →
  ∀ acc : Z, 0 ≤ acc → 0 ≤ fold_left (λ acc d, 10 * acc + d) ds acc.
Proof.
  induction 1 as [|d ds Hd Hds IH]; intros acc Hacc; cbn [fold_left]; [done |].
  apply IH. lia.
Qed.

Lemma digits_value_nonneg (ds : list Z) :
  Forall (λ d, 0 ≤ d) ds → 0 ≤ JsString.digits_value ds.
Proof. intros Hds. by apply fold_digits_nonneg. Qed.

(** A string that starts with a digit. *)
Lemma all_digits_head s :
  Interpreter.all_digits s = true →
  ∃ c r d, s = String c r ∧ JsString.digit c = Some d.
Proof.
  unfold Interpreter.all_digits. destruct s as [|c r]; [cbn; discriminate |].
  cbn [JsString.digits].
  destruct (JsString.digit c) as [d|] eqn:Hd; [| cbn; discriminate].
  intros _. by exists c, r, d.
Qed.

Lemma parseInt_digit_first c r d :
  JsString.digit c = Some d → JsNumber.nonneg (JsString.parseInt (String c r)) = true.
Proof.
  intros Hd. destruct (digit_char c d Hd) as (Hw & Hm & Hp & _ & _).
  unfold JsString.parseInt. cbn [JsString.trimStart]. rewrite Hw.
  unfold JsString.sign_of. rewrite Hm, Hp.
  pose proof (digits_nonneg (String c r)) as Hds.
  destruct (JsString.digits (String c r)) as [[|d0 ds] rest] eqn:E; cbn [fst] in Hds.
  - cbn [JsString.digits] in E. rewrite Hd in E.
    destruct (JsString.digits r); discriminate.
  - apply digits_value_nonneg in Hds.
    destruct (JsString.digits_value (d0 :: ds)) as [|p|p]; [done | | lia].
    by apply of_Z_nonneg.
Qed.

Lemma of_decimal_nonneg (m k : Z) : JsNumber.nonneg (JsNumber.of_decimal false m k) = true.
Proof.
  unfold JsNumber.of_decimal. destruct m as [|p|p]; try done.
  destruct (0 <=? k) eqn:Hk.
  - apply Z.leb_le in Hk. cbn [cond_Zopp]. apply of_Z_nonneg.
    apply Z.mul_nonneg_nonneg; [lia | by apply Z.pow_nonneg].
  - by apply (div_nonneg (S754_finite false p 0)).
Qed.

Lemma parseFloat_digit_first c r d :
  JsString.digit c = Some d → JsNumber.nonneg (JsString.parseFloat (String c r)) = true.
Proof.
  intros Hd. destruct (digit_char c d Hd) as (Hw & Hm & Hp & HI & _).
  unfold JsString.parseFloat. cbn [JsString.trimStart]. rewrite Hw.
  unfold JsString.sign_of. rewrite Hm, Hp.
  cbn [String.prefix]. destruct (ascii_dec "I" c) as [<- | _]; [done |].
  cbn [JsString.digits]. rewrite Hd. destruct (JsString.digits r) as [ds rest].
  destruct (match rest with
            | String c0 r' => if Ascii.eqb c0 "." then JsString.digits r' else ([], rest)
            | EmptyString => ([], rest)
            end) as [fp r2].
  cbn [app]. apply of_decimal_nonneg.
Qed.

(** The first field of a split is a prefix of the string. *)
Lemma split_head (sep : ascii) s c w ws :
  JsString.split sep s = String c w :: ws → ∃ r, s = String c r.
Proof.
  destruct s as [|c' r]; cbn [JsString.split]; [done |].
  destruct (Ascii.eqb c' sep); [done |].
  destruct (JsString.split sep r) as [|f fs]; intros [= -> _ _]; by eexists.
Qed.

Lemma seconds_field_head s :
  Interpreter.seconds_field s = true →
  ∃ c r d, s = String c r ∧ JsString.digit c = Some d.
Proof.
  unfold Interpreter.seconds_field.
  destruct (JsString.split "." s) as [|w [|f [|x fs]]] eqn:E; try done.
  - intros Hw. destruct (all_digits_head w Hw) as (c & w' & d & -> & Hd).
    destruct (split_head _ _ _ _ _ E) as [r ->]. by exists c, r, d.
  - intros [Hw _]%andb_prop. destruct (all_digits_head w Hw) as (c & w' & d & -> & Hd).
    destruct (split_head _ _ _ _ _ E) as [r ->]. by exists c, r, d.
Qed.

(** The seconds of a well-formed marker are a non-negative number. *)
Lemma well_formed_elapsed (tm : string) :
  Interpreter.well_formed tm = true →
  ∃ hh mm ss, JsString.split ":" tm = [hh; mm; ss]
    ∧ JsNumber.nonneg (Interpreter.elapsedSeconds hh mm ss) = true.
Proof.
  unfold Interpreter.well_formed.
  destruct (JsString.split ":" tm) as [|hh [|mm [|ss [|x fs]]]]; try done.
  intros [[Hh Hm]%andb_prop Hs]%andb_prop.
  exists hh, mm, ss. split; [done |].
  destruct (all_digits_head hh Hh) as (c1 & r1 & d1 & -> & Hd1).
  destruct (all_digits_head mm Hm) as (c2 & r2 & d2 & -> & Hd2).
  destruct (seconds_field_head ss Hs) as (c3 & r3 & d3 & -> & Hd3).
  unfold Interpreter.elapsedSeconds.
  apply add_nonneg; [apply add_nonneg |].
  - apply mul_nonneg; [by apply (parseInt_digit_first c1 r1 d1) | by vm_compute].
  - apply mul_nonneg; [by apply (parseInt_digit_first c2 r2 d2) | by vm_compute].
  - by apply (parseFloat_digit_first c3 r3 d3).
Qed.
End Parsing.

(** ** Sanity of the embedding on concrete values *)

Example parseFloat_tenth :
  JsString.parseFloat "0.1" = S754_finite false 7205759403792794 (-56).
Proof. by vm_compute. Qed.

Example parseInt_prefix : JsString.parseInt " -012abc" = JsNumber.of_Z (-12).
Proof. by vm_compute. Qed.

Example parseInt_letters : JsString.parseInt "aa" = JsNumber.NaN.
Proof. by vm_compute. Qed.

Example split_timemark : JsString.split ":" "00:01:02.50" = ["00"; "01"; "02.50"]%string.
Proof. by vm_compute. Qed.

Example floor_negative_half : JsNumber.floor (JsString.parseFloat "-0.5") = JsNumber.of_Z (-1).
Proof. by vm_compute. Qed.

(** Twenty-nine seconds of a hundred are stored as 28: the quotient is
    rounded before it is scaled. *)
Example twenty_nine_of_hundred :
  Interpreter.interpret (Some (JsNumber.of_Z 100)) (Sample.at_time "00:00:29.00")
  = Some (JsNumber.of_Z 28).
Proof. by vm_compute. Qed.

Example sample_id_is_uuid : is_uuid Sample.id = true.
Proof. by vm_compute. Qed.

(** The probe of the sample input starts exactly the sample run, with
    both adaptation sets in its directive. *)
Example sample_run_started : runs Sample.processing = [Sample.the_run].
Proof. by vm_compute. Qed.

Example sample_directive :
  adaptationSetsArg true true = "id=0,streams=v id=1,streams=a"%string.
Proof. by vm_compute. Qed.

(** ** Encoder directives *)

(** C4.  With one or two media types present, the adaptation-sets
    directive lists exactly one entry per present type, set 0 for video
    and set 1 for audio, in that order; splitting it at single spaces
    gives back those entries, it holds one space fewer than entries, and
    with two entries it is not their comma-joined form. *)
Theorem adaptation_sets_directive (hasVideo hasAudio : bool) :
  (1 ≤ present hasVideo hasAudio)%nat →
  adaptationSetParts hasVideo hasAudio = entries_for hasVideo hasAudio
  ∧ List.length (adaptationSetParts hasVideo hasAudio) = present hasVideo hasAudio
  ∧ adaptationSetsArg hasVideo hasAudio = JsString.join " " (entries_for hasVideo hasAudio)
  ∧ JsString.split " " (adaptationSetsArg hasVideo hasAudio) = entries_for hasVideo hasAudio
  ∧ S (occurrences " " (adaptationSetsArg hasVideo hasAudio)) = present hasVideo hasAudio
  ∧ (present hasVideo hasAudio = 2%nat →
     adaptationSetsArg hasVideo hasAudio ≠ JsString.join "," (entries_for hasVideo hasAudio)).
Proof.
  destruct hasVideo, hasAudio; cbn [present Nat.add]; intros Hn;
    try (exfalso; lia); vm_compute; repeat split; try discriminate; reflexivity.
Qed.

Lemma adaptation_sets_directive_witness :
  (1 ≤ present true true)%nat
  ∧ JsString.split " " (adaptationSetsArg true true)
    = ["id=0,streams=v"; "id=1,streams=a"]%string.
Proof.
  split; [cbn; lia |].
  apply (adaptation_sets_directive true true). cbn; lia.
Defined.

(** C5.  With exactly one of audio and video present, the directive is
    a single entry: the list of parts has one element, the string is that
    element, it is not empty and it contains no separator. *)
Theorem single_stream_directive (hasVideo hasAudio : bool) :
  xorb hasVideo hasAudio = true →
  ∃ entry : string,
    adaptationSetParts hasVideo hasAudio = [entry]
    ∧ entry = (if hasVideo then "id=0,streams=v" else "id=1,streams=a")%string
    ∧ adaptationSetsArg hasVideo hasAudio = entry
    ∧ adaptationSetsArg hasVideo hasAudio ≠ EmptyString
    ∧ JsString.mem " " (adaptationSetsArg hasVideo hasAudio) = false
    ∧ JsString.split " " (adaptationSetsArg hasVideo hasAudio) = [entry].
Proof.
  destruct hasVideo, hasAudio; cbn [xorb]; intros Hx; try discriminate;
    eexists; (split; [reflexivity |]); vm_compute; repeat split; discriminate.
Qed.

Lemma single_stream_directive_witness :
  xorb true false = true
  ∧ ∃ entry : string,
      adaptationSetParts true false = [entry]
      ∧ entry = "id=0,streams=v"%string
      ∧ adaptationSetsArg true false = entry
      ∧ adaptationSetsArg true false ≠ EmptyString
      ∧ JsString.mem " " (adaptationSetsArg true false) = false
      ∧ JsString.split " " (adaptationSetsArg true false) = [entry].
Proof.
  split; [reflexivity |].
  apply (single_stream_directive true false). reflexivity.
Defined.

(** ** The progress interpreter *)

(** C6, as stated, fails: with a known duration, a two-field marker and a
    direct percent of 50, the listener keeps the stored 0, where the
    claimed rule falls through to the direct value and gives 50. *)
Lemma short_marker_hides_direct_percent :
  let progress := Some (Progress.mk (Some "12:34"%string) (Some (JsNumber.of_Z 50)) []) in
  stored_percent Sample.id Sample.processing = Some (JsNumber.of_Z 0)
  ∧ stored_percent Sample.id
      <$> on_progress (Some (JsNumber.of_Z 100)) Sample.id progress Sample.processing
    = Some (Some (JsNumber.of_Z 0))
  ∧ Interpreter.as_claimed (Some (JsNumber.of_Z 100)) progress (Some (JsNumber.of_Z 0))
    = Some (JsNumber.of_Z 50).
Proof. by vm_compute. Qed.

(** C6, amended.  On a job with a record the listener stores what
    [Interpreter.interpret] computes: with a non-empty marker and a known
    duration, [min(100, floor((elapsed / total) * 100))] when the marker has
    three fields and the previous percent otherwise; without such a marker
    or duration, [min(100, floor(value))] for a direct value; and the
    previous percent when there is neither. *)
Theorem progress_interpretation (duration : option number) (id : string)
    (progress : option Progress.t) (sv : Server) (r : JobRecord) :
  progressStore sv !! id = Some r →
  ∃ sv' : Server,
    on_progress duration id progress sv = Some sv'
    ∧ stored_percent id sv'
      = match Interpreter.interpret duration progress with
        | Some v => Some v
        | None => percent r
        end.
Proof.
  intros Hr. eexists. split; [by apply on_progress_record |].
  by rewrite stored_percent_assign.
Qed.

Lemma progress_interpretation_witness :
  progressStore Sample.processing !! Sample.id
  = Some {| status := Status.processing; percent := Some (JsNumber.of_Z 0);
            error := None; createdAt := None; startedAt := Some "T1"%string;
            finishedAt := None; raw := None |}
  ∧ ∃ sv' : Server,
      on_progress (Some (JsNumber.of_Z 100)) Sample.id (Sample.at_time "00:00:29.00")
        Sample.processing = Some sv'
      ∧ stored_percent Sample.id sv' = Some (JsNumber.of_Z 28).
Proof.
  assert (H : progressStore Sample.processing !! Sample.id
              = Some {| status := Status.processing; percent := Some (JsNumber.of_Z 0);
                        error := None; createdAt := None; startedAt := Some "T1"%string;
                        finishedAt := None; raw := None |}) by (by vm_compute).
  split; [exact H |].
  exact (progress_interpretation (Some (JsNumber.of_Z 100)) Sample.id
           (Sample.at_time "00:00:29.00") Sample.processing _ H).
Defined.

(** C1, as stated, fails: an update at 50 seconds of 100 stores 50, the
    next one at 20 seconds stores 20, which is smaller. *)
Lemma percent_can_regress :
  stored_percent Sample.id
    <$> listen_all Sample.the_run
          [ev_progress (Sample.at_time "00:00:50.00")] Sample.processing
  = Some (Some (JsNumber.of_Z 50))
  ∧ stored_percent Sample.id
      <$> listen_all Sample.the_run
            [ev_progress (Sample.at_time "00:00:50.00");
             ev_progress (Sample.at_time "00:00:20.00")] Sample.processing
    = Some (Some (JsNumber.of_Z 20))
  ∧ JsNumber.ltb (JsNumber.of_Z 20) (JsNumber.of_Z 50) = true.
Proof. by vm_compute. Qed.

(** C1, amended.  Through any sequence of progress events on a job with
    a record, the listeners all complete, the status stays what it was, and
    the stored percent is the replay of the events: every interpreted
    value overwrites the stored one, an uninterpreted event keeps it. *)
Theorem progress_replay (r : Run) (events : list (option Progress.t)) (sv : Server)
    (r0 : JobRecord) :
  progressStore sv !! run_id r = Some r0 →
  ∃ (sv' : Server) (r' : JobRecord),
    listen_all r (map ev_progress events) sv = Some sv'
    ∧ progressStore sv' !! run_id r = Some r'
    ∧ status r' = status r0
    ∧ percent r' = Interpreter.replay (run_duration r) events (percent r0).
Proof.
  revert sv r0. induction events as [|p events IH]; intros sv r0 Hr.
  - exists sv, r0. by cbn.
  - cbn [map listen_all listen].
    rewrite (on_progress_record _ _ _ _ _ Hr).
    destruct (IH (assign (run_id r) (after_progress (run_duration r) p r0) sv)
                 (after_progress (run_duration r) p r0) (lookup_assign _ _ _))
      as (sv' & r' & Hrun & Hr' & Hst & Hp).
    exists sv', r'. by repeat split.
Qed.

Lemma progress_replay_witness :
  progressStore Sample.processing !! run_id Sample.the_run
  = Some {| status := Status.processing; percent := Some (JsNumber.of_Z 0);
            error := None; createdAt := None; startedAt := Some "T1"%string;
            finishedAt := None; raw := None |}
  ∧ ∃ (sv' : Server) (r' : JobRecord),
      listen_all Sample.the_run
        (map ev_progress [Sample.at_time "00:00:50.00"; None; Sample.at_time "00:00:20.00"])
        Sample.processing = Some sv'
      ∧ progressStore sv' !! run_id Sample.the_run = Some r'
      ∧ status r' = Status.processing
      ∧ percent r' = Some (JsNumber.of_Z 20).
Proof.
  assert (H : progressStore Sample.processing !! run_id Sample.the_run
              = Some {| status := Status.processing; percent := Some (JsNumber.of_Z 0);
                        error := None; createdAt := None; startedAt := Some "T1"%string;
                        finishedAt := None; raw := None |}) by (by vm_compute).
  split; [exact H |].
  exact (progress_replay Sample.the_run
           [Sample.at_time "00:00:50.00"; None; Sample.at_time "00:00:20.00"]
           Sample.processing _ H).
Defined.

(** C7, as stated, fails: a three-field marker that does not parse as
    numbers replaces the stored 0 by NaN, and a marker with a negative
    hour count stores -3600; neither is an integer between 0 and 100. *)
Lemma unparsable_marker_stores_nan :
  stored_percent Sample.id Sample.processing = Some (JsNumber.of_Z 0)
  ∧ stored_percent Sample.id
      <$> on_progress (Some (JsNumber.of_Z 100)) Sample.id (Sample.at_time "aa:bb:cc")
            Sample.processing
    = Some (Some JsNumber.NaN)
  ∧ Interpreter.in_range JsNumber.NaN = false
  ∧ stored_percent Sample.id
      <$> on_progress (Some (JsNumber.of_Z 100)) Sample.id (Sample.at_time "-1:00:00")
            Sample.processing
    = Some (Some (JsNumber.of_Z (-3600)))
  ∧ Interpreter.in_range (JsNumber.of_Z (-3600)) = false.
Proof. by vm_compute. Qed.

(** Whatever is interpreted is NaN or a whole number not above 100. *)
Lemma interpret_range (duration : option number) (progress : option Progress.t) (v : number) :
  Interpreter.interpret duration progress = Some v →
  v = JsNumber.NaN
  ∨ (JsNumber.leb v (JsNumber.of_Z 100) = true ∧ Interpreter.whole v).
Proof.
  unfold Interpreter.interpret.
  destruct (Interpreter.known duration) as [d|], (Interpreter.marker progress) as [tm|];
    try (destruct (Interpreter.direct progress) as [w|]; [| discriminate];
         intros [= <-]; apply clamp_range).
  destruct (JsString.split ":" tm) as [|hh [|mm [|ss [|x parts]]]]; try discriminate.
  intros [= <-]. apply clamp_range.
Qed.

(** C7, amended.  On a job with a record no progress event is fatal, and
    the percent stored afterwards is the previous one, or NaN, or a whole
    number not above 100.  A marker whose number of fields is not three
    (the duration being known) leaves the percent as it was.  A
    well-formed [HH:MM:SS(.frac)] marker with a positive finite duration,
    and likewise a non-negative direct value, stores an integer between 0
    and 100. *)
Theorem progress_percent_range (duration : option number) (id : string)
    (progress : option Progress.t) (sv : Server) (r : JobRecord) :
  progressStore sv !! id = Some r →
  ∃ sv' : Server,
    on_progress duration id progress sv = Some sv'
    ∧ (stored_percent id sv' = percent r
       ∨ ∃ v : number,
           stored_percent id sv' = Some v
           ∧ (v = JsNumber.NaN
              ∨ (JsNumber.leb v (JsNumber.of_Z 100) = true ∧ Interpreter.whole v)))
    ∧ (∀ (d : number) (tm : string),
         Interpreter.known duration = Some d →
         Interpreter.marker progress = Some tm →
         List.length (JsString.split ":" tm) ≠ 3%nat →
         stored_percent id sv' = percent r)
    ∧ (∀ (d : number) (tm : string),
         Interpreter.known duration = Some d →
         Interpreter.marker progress = Some tm →
         Interpreter.well_formed tm = true →
         JsNumber.positive_finite d = true →
         ∃ v : number, stored_percent id sv' = Some v ∧ Interpreter.is_percent v)
    ∧ (∀ v0 : number,
         Interpreter.known duration = None ∨ Interpreter.marker progress = None →
         Interpreter.direct progress = Some v0 →
         JsNumber.nonneg v0 = true →
         ∃ v : number, stored_percent id sv' = Some v ∧ Interpreter.is_percent v).
Proof.
  intros Hr. eexists. split; [by apply on_progress_record |].
  rewrite stored_percent_assign. cbn [after_progress percent]. unfold Interpreter.update.
  repeat split.
  - destruct (Interpreter.interpret duration progress) as [v|] eqn:Hi; [| by left].
    right. exists v. split; [done |]. by apply (interpret_range duration progress).
  - intros d tm Hd Htm Hlen. unfold Interpreter.interpret. rewrite Hd, Htm.
    by destruct (JsString.split ":" tm) as [|hh [|mm [|ss [|x parts]]]].
  - intros d tm Hd Htm Hwf Hpos. unfold Interpreter.interpret. rewrite Hd, Htm.
    destruct (well_formed_elapsed tm Hwf) as (hh & mm & ss & -> & Hs).
    eexists. split; [reflexivity |].
    apply clamp_percent, mul_nonneg; [by apply div_nonneg | by vm_compute].
  - intros v0 Hno Hv0 Hpos. unfold Interpreter.interpret.
    assert (Hi : match Interpreter.known duration, Interpreter.marker progress with
                 | Some d, Some tm => None
                 | _, _ => Some v0
                 end = Some v0)
      by (destruct Hno as [-> | ->]; [| destruct (Interpreter.known duration)]; done).
    destruct (Interpreter.known duration) as [d|], (Interpreter.marker progress) as [tm|];
      try discriminate; rewrite Hv0; (eexists; split; [reflexivity |]);
      by apply clamp_percent.
Qed.

Lemma progress_percent_range_witness :
  progressStore Sample.processing !! Sample.id
  = Some {| status := Status.processing; percent := Some (JsNumber.of_Z 0);
            error := None; createdAt := None; startedAt := Some "T1"%string;
            finishedAt := None; raw := None |}
  ∧ ∃ sv' : Server,
      on_progress (Some (JsNumber.of_Z 100)) Sample.id (Sample.at_time "12:34")
        Sample.processing = Some sv'
      ∧ stored_percent Sample.id sv' = Some (JsNumber.of_Z 0).
Proof.
  assert (H : progressStore Sample.processing !! Sample.id
              = Some {| status := Status.processing; percent := Some (JsNumber.of_Z 0);
                        error := None; createdAt := None; startedAt := Some "T1"%string;
                        finishedAt := None; raw := None |}) by (by vm_compute).
  split; [exact H |].
  destruct (progress_percent_range (Some (JsNumber.of_Z 100)) Sample.id
              (Sample.at_time "12:34") Sample.processing _ H)
    as (sv' & Hrun & _ & Hshort & _).
  exists sv'. split; [exact Hrun |].
  apply (Hshort (JsNumber.of_Z 100) "12:34"%string); [reflexivity | reflexivity |].
  vm_compute. discriminate.
Defined.

(** ** The job lifecycle *)

Section Lifecycle.
Implicit Types (sv : Server) (id inputPath now dirname : string) (r : JobRecord).

(** A failed probe writes the error record and does nothing else. *)
Lemma ffprobe_error_effect dirname id inputPath now (err : string) sv :
  let sv' := ffprobe_callback dirname id inputPath now (inl err) sv in
  (status <$> progressStore sv' !! id) = Some Status.error
  ∧ files sv' = files sv
  ∧ runs sv' = runs sv.
Proof. cbn. by rewrite lookup_insert_eq. Qed.

(** A probe that finds neither audio nor video writes the error record,
    removes the upload and starts no encoder. *)
Lemma no_streams_effect dirname id inputPath now (metadata : Metadata) sv :
  has_stream "video" (streams metadata) = false →
  has_stream "audio" (streams metadata) = false →
  let sv' := ffprobe_callback dirname id inputPath now (inr metadata) sv in
  (status <$> progressStore sv' !! id) = Some Status.error
  ∧ files sv' = files sv ∖ {[ inputPath ]}
  ∧ runs sv' = runs sv.
Proof.
  intros Hv Ha. cbn. rewrite Hv, Ha. cbn.
  rewrite lookup_insert_eq, try_unlink_spec. done.
Qed.

(** A probe that finds a stream moves the job to "processing" and
    starts exactly one encoder on the upload. *)
Lemma usable_streams_effect dirname id inputPath now (metadata : Metadata) sv :
  has_stream "video" (streams metadata) || has_stream "audio" (streams metadata) = true →
  let sv' := ffprobe_callback dirname id inputPath now (inr metadata) sv in
  (status <$> progressStore sv' !! id) = Some Status.processing
  ∧ stored_percent id sv' = Some (JsNumber.of_Z 0)
  ∧ files sv' = files sv
  ∧ ∃ run : Run, runs sv' = runs sv ++ [run]
      ∧ run_id run = id ∧ run_input run = inputPath
      ∧ run_duration run = duration_of metadata.
Proof.
  intros Hs. cbn.
  destruct (has_stream "video" (streams metadata)),
           (has_stream "audio" (streams metadata)); try discriminate;
    cbn; unfold stored_percent; cbn; rewrite lookup_insert_eq;
    (repeat split; try done); eexists; (split; [reflexivity |]); done.
Qed.

(** The ['error'] listener writes the error record and removes the
    upload. *)
Lemma on_error_effect id inputPath (err : option Err) sv :
  let sv' := on_error id inputPath err sv in
  progressStore sv' !! id
  = Some {| status := Status.error; percent := None;
            error := match err with Some e => message e | None => None end;
            createdAt := None; startedAt := None; finishedAt := None; raw := None |}
  ∧ files sv' = files sv ∖ {[ inputPath ]}.
Proof. cbn. by rewrite lookup_insert_eq, try_unlink_spec. Qed.

End Lifecycle.

(** C2.  The code at the failing input: after the prober fails on the
    sample upload the job is in "error" and no encoder was started, but
    the uploaded file is still on disk; the sibling path, a probe that finds
    no stream, does remove it. *)
Theorem probe_failure_leaves_upload :
  (status <$> progressStore Sample.probe_failed !! Sample.id) = Some Status.error
  ∧ runs Sample.probe_failed = []
  ∧ (Sample.inputPath ∈ files Sample.probe_failed)
  ∧ (Sample.inputPath
     ∉ files (ffprobe_callback Sample.dirname Sample.id Sample.inputPath "T1"
                (inr {| format := None; streams := [ {| codec_type := "data" |} ] |})
                Sample.queued)).
Proof.
  split; [by vm_compute |]. split; [reflexivity |]. split.
  - change (files Sample.probe_failed) with ({[ Sample.inputPath ]} : gset string).
    by apply elem_of_singleton.
  - destruct (no_streams_effect Sample.dirname Sample.id Sample.inputPath "T1"
                {| format := None; streams := [ {| codec_type := "data" |} ] |}
                Sample.queued eq_refl eq_refl) as (_ & -> & _).
    rewrite elem_of_difference, elem_of_singleton. tauto.
Qed.

(** C3.  The ['end'] listener, in whatever state it runs, leaves the job
    "ready" with percent exactly 100 and the finished timestamp set, and
    the uploaded file is gone while every other file stays. *)
Theorem end_makes_ready (id inputPath now : string) (sv : Server) :
  let sv' := on_end id inputPath now sv in
  progressStore sv' !! id
  = Some {| status := Status.ready; percent := Some (JsNumber.of_Z 100);
            error := None; createdAt := None; startedAt := None;
            finishedAt := Some now; raw := None |}
  ∧ stored_percent id sv' = Some (S754_finite false 7036874417766400 (-46))
  ∧ (inputPath ∉ files sv')
  ∧ files sv' = files sv ∖ {[ inputPath ]}
  ∧ runs sv' = runs sv.
Proof.
  cbn zeta. unfold on_end, stored_percent. cbn [files progressStore with_files runs].
  rewrite lookup_assign, files_assign, try_unlink_spec.
  repeat split; try done.
  rewrite elem_of_difference, elem_of_singleton. tauto.
Qed.

(** C8.  The code at the failing input: on a server that has issued only
    the sample identifier, the name ["__proto__"] was never issued and is
    not a key of the store, yet the status query answers 200 with the
    inherited member instead of 404. *)
Theorem inherited_name_is_found :
  dom (progressStore Sample.queued) = {[ Sample.id ]}
  ∧ progressStore Sample.queued !! "__proto__"%string = None
  ∧ status_handler "__proto__" Sample.queued
    = {| code := 200; body := status_body (inherited "__proto__") |}
  ∧ status_handler "no-such-job" Sample.queued
    = {| code := 404; body := error_body "id not found" |}.
Proof.
  split.
  - change (progressStore Sample.queued)
      with (<[ Sample.id := {| status := Status.queued; percent := Some (JsNumber.of_Z 0);
                               error := None; createdAt := Some "T0"%string;
                               startedAt := None; finishedAt := None; raw := None |} ]>
              (∅ : gmap string JobRecord)).
    rewrite dom_insert_L, dom_empty_L. apply (right_id_L ∅ (∪)).
  - by vm_compute.
Qed.

(** C10.  Every progress event on a job with a record, informative or
    not, completes and leaves the event under [raw]; status, error and
    timestamps are untouched, and the status query returns the record
    with that [raw] in it. *)
Theorem progress_stores_raw (duration : option number) (id : string)
    (progress : option Progress.t) (sv : Server) (r : JobRecord) :
  progressStore sv !! id = Some r →
  ∃ (sv' : Server) (r' : JobRecord),
    on_progress duration id progress sv = Some sv'
    ∧ progressStore sv' !! id = Some r'
    ∧ raw r' = Some progress
    ∧ percent r' = Interpreter.update duration progress (percent r)
    ∧ status r' = status r ∧ error r' = error r ∧ timestamps r' = timestamps r
    ∧ status_handler id sv' = {| code := 200; body := status_body (record r') |}.
Proof.
  intros Hr. exists (assign id (after_progress duration progress r) sv),
    (after_progress duration progress r).
  split; [by apply on_progress_record |].
  split; [apply lookup_assign |].
  repeat split. apply status_handler_own, lookup_assign.
Qed.

Lemma progress_stores_raw_witness :
  let tick := Some (Progress.mk None None [("frames", "10")]%string) in
  progressStore Sample.processing !! Sample.id
  = Some {| status := Status.processing; percent := Some (JsNumber.of_Z 0);
            error := None; createdAt := None; startedAt := Some "T1"%string;
            finishedAt := None; raw := None |}
  ∧ ∃ (sv' : Server) (r' : JobRecord),
      on_progress (Some (JsNumber.of_Z 100)) Sample.id tick Sample.processing = Some sv'
      ∧ progressStore sv' !! Sample.id = Some r'
      ∧ raw r' = Some tick
      ∧ percent r' = Some (JsNumber.of_Z 0)
      ∧ status r' = Status.processing ∧ error r' = None
      ∧ timestamps r' = (None, Some "T1"%string, None)
      ∧ status_handler Sample.id sv' = {| code := 200; body := status_body (record r') |}.
Proof.
  cbn zeta.
  assert (H : progressStore Sample.processing !! Sample.id
              = Some {| status := Status.processing; percent := Some (JsNumber.of_Z 0);
                        error := None; createdAt := None; startedAt := Some "T1"%string;
                        finishedAt := None; raw := None |}) by (by vm_compute).
  split; [exact H |].
  exact (progress_stores_raw (Some (JsNumber.of_Z 100)) Sample.id
           (Some (Progress.mk None None [("frames", "10")]%string)) Sample.processing _ H).
Defined.

(** ** Timestamps through the transitions *)

Section Timestamps.
Implicit Types (sv : Server) (id dirname : string) (r : JobRecord) (a : Action).







End Timestamps.




(* ===================================================================== *)
(** * Further properties of the handlers *)
(* ===================================================================== *)

(** ** Splitting and joining *)

Section SplitJoin.
Implicit Types (sep c : ascii) (s : string) (parts : list string).

Lemma append_nil_l s : EmptyString +:+ s = s.
Proof. reflexivity. Qed.

Lemma append_cons c s (t : string) : String c s +:+ t = String c (s +:+ t).
Proof. reflexivity. Qed.

Lemma split_not_nil sep s : JsString.split sep s ≠ [].
Proof.
  destruct s as [|c r]; cbn [JsString.split]; [done |].
  destruct (Ascii.eqb c sep); [done |]. by destruct (JsString.split sep r).
Qed.

Lemma join_cons glue (p : string) parts :
  parts ≠ [] → JsString.join glue (p :: parts) = p +:+ glue +:+ JsString.join glue parts.
Proof. by destruct parts. Qed.

(** X1.  Joining the fields of a split with the separator gives the
    string back. *)
Theorem join_split sep s :
  JsString.join (String sep EmptyString) (JsString.split sep s) = s.
Proof.
  induction s as [|c r IH]; [done |].
  cbn [JsString.split]. destruct (Ascii.eqb c sep) eqn:Hc.
  - apply Ascii.eqb_eq in Hc as ->.
    rewrite join_cons by apply split_not_nil.
    by rewrite append_nil_l, append_cons, append_nil_l, IH.
  - pose proof (split_not_nil sep r) as Hne.
    destruct (JsString.split sep r) as [|f fs]; [done |].
    destruct fs as [|f' fs].
    + cbn [JsString.join] in *. by rewrite IH.
    + rewrite join_cons by done. rewrite join_cons in IH by done.
      by rewrite append_cons, IH.
Qed.

(** A split has one field more than the string has separators. *)
Lemma length_split sep s :
  List.length (JsString.split sep s) = S (occurrences sep s).
Proof.
  induction s as [|c r IH]; [done |].
  cbn [JsString.split occurrences]. rewrite (Ascii.eqb_sym sep c).
  destruct (Ascii.eqb c sep); cbn [List.length]; [by rewrite IH |].
  destruct (JsString.split sep r) as [|f fs]; cbn in *; lia.
Qed.

Lemma split_no_separator sep s :
  JsString.mem sep s = false → JsString.split sep s = [s].
Proof.
  induction s as [|c r IH]; [done |].
  cbn [JsString.mem JsString.split]. rewrite (Ascii.eqb_sym sep c).
  intros [Hc Hr]%orb_false_elim. rewrite Hc, (IH Hr). done.
Qed.

Lemma split_append sep (p rest : string) :
  JsString.mem sep p = false →
  JsString.split sep (p +:+ String sep rest) = p :: JsString.split sep rest.
Proof.
  induction p as [|c r IH]; cbn [JsString.mem].
  - intros _. rewrite append_nil_l. cbn [JsString.split]. by rewrite Ascii.eqb_refl.
  - rewrite (Ascii.eqb_sym sep c). intros [Hc Hr]%orb_false_elim.
    rewrite append_cons. cbn [JsString.split]. by rewrite Hc, (IH Hr).
Qed.

(** X2.  Splitting a joined list gives the list back, provided it is not
    empty and no element contains the separator. *)
Theorem split_join sep parts :
  parts ≠ [] →
  Forall (λ p, JsString.mem sep p = false) parts →
  JsString.split sep (JsString.join (String sep EmptyString) parts) = parts.
Proof.
  intros Hne Hall. induction Hall as [|p parts Hp Hall IH]; [done |].
  destruct parts as [|q parts].
  - cbn. by apply split_no_separator.
  - rewrite join_cons by done.
    rewrite append_cons, append_nil_l.
    rewrite split_append by done. f_equal. by apply IH.
Qed.

Lemma split_join_witness :
  ["id=0,streams=v"; "id=1,streams=a"]%string ≠ []
  ∧ Forall (λ p, JsString.mem " " p = false) ["id=0,streams=v"; "id=1,streams=a"]%string
  ∧ JsString.split " " (JsString.join " " ["id=0,streams=v"; "id=1,streams=a"]%string)
    = ["id=0,streams=v"; "id=1,streams=a"]%string.
Proof.
  assert (H1 : ["id=0,streams=v"; "id=1,streams=a"]%string ≠ []) by discriminate.
  assert (H2 : Forall (λ p, JsString.mem " " p = false)
                 ["id=0,streams=v"; "id=1,streams=a"]%string)
    by (repeat constructor).
  split; [exact H1 |]. split; [exact H2 |].
  exact (split_join " " _ H1 H2).
Defined.
End SplitJoin.

(** ** The upload handler and the first status query *)

Section Upload.
Implicit Types (sv : Server) (id now dirname : string) (req : Request).

(** X3.  With a known duration, a non-empty time marker updates the
    percent exactly when it contains two colons: with any other number of
    colons the stored percent stays, with two a value is stored. *)
Theorem marker_needs_two_colons (d : number) (tm : string) (duration : option number)
    (id : string) (progress : option Progress.t) (sv : Server) (r : JobRecord) :
  progressStore sv !! id = Some r →
  Interpreter.known duration = Some d →
  Interpreter.marker progress = Some tm →
  ∃ sv' : Server,
    on_progress duration id progress sv = Some sv'
    ∧ (occurrences ":" tm ≠ 2%nat → stored_percent id sv' = percent r)
    ∧ (occurrences ":" tm = 2%nat → ∃ v : number, stored_percent id sv' = Some v).
Proof.
  intros Hr Hd Htm. eexists. split; [by apply on_progress_record |].
  rewrite stored_percent_assign. cbn [after_progress percent].
  unfold Interpreter.update, Interpreter.interpret. rewrite Hd, Htm.
  pose proof (length_split ":" tm) as Hlen.
  destruct (JsString.split ":" tm) as [|hh [|mm [|ss [|x parts]]]]; cbn in Hlen;
    split; intros Hocc; try done; try lia; by eexists.
Qed.

Lemma marker_needs_two_colons_witness :
  progressStore Sample.processing !! Sample.id
  = Some {| status := Status.processing; percent := Some (JsNumber.of_Z 0);
            error := None; createdAt := None; startedAt := Some "T1"%string;
            finishedAt := None; raw := None |}
  ∧ Interpreter.known (Some (JsNumber.of_Z 100)) = Some (JsNumber.of_Z 100)
  ∧ Interpreter.marker (Sample.at_time "00:01:40.00") = Some "00:01:40.00"%string
  ∧ ∃ sv' : Server,
      on_progress (Some (JsNumber.of_Z 100)) Sample.id (Sample.at_time "00:01:40.00")
        Sample.processing = Some sv'
      ∧ ∃ v : number, stored_percent Sample.id sv' = Some v.
Proof.
  assert (H : progressStore Sample.processing !! Sample.id
              = Some {| status := Status.processing; percent := Some (JsNumber.of_Z 0);
                        error := None; createdAt := None; startedAt := Some "T1"%string;
                        finishedAt := None; raw := None |}) by (by vm_compute).
  split; [exact H |]. split; [reflexivity |]. split; [reflexivity |].
  destruct (marker_needs_two_colons (JsNumber.of_Z 100) "00:01:40.00"
              (Some (JsNumber.of_Z 100)) Sample.id (Sample.at_time "00:01:40.00")
              Sample.processing _ H eq_refl eq_refl) as (sv' & Hrun & _ & Htwo).
  exists sv'. split; [exact Hrun |]. apply Htwo. reflexivity.
Defined.

(** X4.  The route answers 400, without touching the server, exactly
    when the middleware hands on a request without a file; 500, again
    without touching the server, exactly when the middleware refuses the
    request or the output directory cannot be made; and 200 exactly when
    there is a file and the directory is made, the effect then being that
    of the handler's [try] block. *)
Theorem upload_route_answers dirname (t : Transport) (mkdir : option string) id now sv :
  let sv' := fst (upload_route dirname t mkdir id now sv) in
  let res := snd (upload_route dirname t mkdir id now sv) in
  (code res = 400 ↔ ∃ req, t = passed req ∧ file req = None)
  ∧ (code res = 500
     ↔ (∃ err, t = refused err)
       ∨ ∃ req f message, t = passed req ∧ file req = Some f ∧ mkdir = Some message)
  ∧ (code res = 200 ↔ ∃ req f, t = passed req ∧ file req = Some f ∧ mkdir = None)
  ∧ (code res = 400 → body res = error_body "no file uploaded (field name: file)")
  ∧ (∀ message, (∃ req, t = passed req) → mkdir = Some message → code res = 500 →
       body res = failure_body "internal server error" message)
  ∧ (code res ≠ 200 → sv' = sv)
  ∧ (code res = 200 →
       ∃ req, t = passed req ∧ (sv', res) = upload dirname req id now sv
              ∧ is_Some (progressStore sv' !! id)).
Proof.
  cbn zeta. unfold upload_route, upload.
  destruct t as [err | req]; [| destruct (file req) as [f|] eqn:Hf; [destruct mkdir as [m|] |]];
    cbn [fst snd code body];
    repeat match goal with |- _ ∧ _ => split | |- _ ↔ _ => split end;
    try (intros; discriminate); try done.
  - intros (req & [=] & _).
  - intros _. left. by eexists.
  - intros (req & f & [=] & _).
  - by intros _ [req [=]].
  - intros (req' & [= <-] & Hnone). congruence.
  - intros _. right. by exists req, f, m.
  - intros (req' & f' & [= <-] & _ & [=]).
  - intros m' _ [= ->] _. done.
  - intros (req' & [= <-] & Hnone). congruence.
  - intros [(err & [=]) | (req' & f' & m & [= <-] & _ & [=])].
  - intros _. by exists req, f.
  - intros _. exists req. split; [done |]. rewrite Hf. split; [done |].
    cbn [progressStore]. by rewrite lookup_assign.
  - intros _. by exists req.
  - intros [(err & [=]) | (req' & f' & m & [= <-] & Hsome & _)]. congruence.
  - intros (req' & f' & [= <-] & Hsome & _). congruence.
Qed.

(** X5.  After an accepted upload the response names the job and its
    two URLs, the status query for that job answers 200 with the queued
    record (percent 0, created timestamp), the records of other jobs and
    the files on disk are as before, no encoder has been started, and the
    output directory of the job exists. *)
Theorem upload_then_status dirname req (f : File) id now sv :
  file req = Some f →
  let sv' := fst (upload dirname req id now sv) in
  snd (upload dirname req id now sv)
  = {| code := 200;
       body := upload_body id
                 ((protocol req +:+ "://" +:+ host req) +:+ "/dash/" +:+ id +:+ "/manifest.mpd")
                 ((protocol req +:+ "://" +:+ host req) +:+ "/status/" +:+ id) |}
  ∧ status_handler id sv'
    = {| code := 200;
         body := status_body (record
                   {| status := Status.queued; percent := Some (JsNumber.of_Z 0);
                      error := None; createdAt := Some now; startedAt := None;
                      finishedAt := None; raw := None |}) |}
  ∧ (∀ id' : string, id' ≠ id → progressStore sv' !! id' = progressStore sv !! id')
  ∧ files sv' = files sv
  ∧ runs sv' = runs sv
  ∧ outDir dirname id ∈ dirs sv'.
Proof.
  intros Hf. unfold upload. rewrite Hf. cbn [fst snd].
  split; [reflexivity |]. split; [apply status_handler_own, lookup_assign |].
  split; [intros id' Hne; by rewrite lookup_assign_ne |].
  split; [reflexivity |]. split; [reflexivity |].
  cbn. unfold outDir. apply elem_of_union_l. by apply elem_of_singleton.
Qed.

Lemma upload_then_status_witness :
  file Sample.request = Some {| path := Sample.inputPath; originalname := "clip.mp4" |}
  ∧ status_handler Sample.id Sample.queued
    = {| code := 200;
         body := status_body (record
                   {| status := Status.queued; percent := Some (JsNumber.of_Z 0);
                      error := None; createdAt := Some "T0"%string; startedAt := None;
                      finishedAt := None; raw := None |}) |}.
Proof.
  split; [reflexivity |].
  exact (proj1 (proj2 (upload_then_status Sample.dirname Sample.request _ Sample.id "T0"
                         Sample.fresh eq_refl))).
Defined.
End Upload.

(** ** The probe callback and the encoder command *)

Section Probe.
Implicit Types (sv : Server) (id inputPath now dirname : string) (metadata : Metadata).

(** X6.  When the prober answers, the classification decides: with a
    video or an audio stream the job is "processing" at percent 0,
    exactly one encoder run is started on the upload and the upload
    stays; with neither, the job is in "error", no run is started and the
    upload is removed.  Other jobs and the directories are untouched. *)
Theorem probe_outcome dirname id inputPath now metadata sv :
  let sv' := ffprobe_callback dirname id inputPath now (inr metadata) sv in
  progressStore sv' !! id
  = Some (if usable metadata
          then {| status := Status.processing; percent := Some (JsNumber.of_Z 0);
                  error := None; createdAt := None; startedAt := Some now;
                  finishedAt := None; raw := None |}
          else {| status := Status.error; percent := None;
                  error := Some "Input has no audio or video streams."%string;
                  createdAt := None; startedAt := None; finishedAt := None;
                  raw := None |})
  ∧ runs sv' = (if usable metadata
                then runs sv ++ [run_of dirname id inputPath metadata]
                else runs sv)
  ∧ files sv' = (if usable metadata then files sv else files sv ∖ {[ inputPath ]})
  ∧ dirs sv' = dirs sv
  ∧ (∀ id' : string, id' ≠ id → progressStore sv' !! id' = progressStore sv !! id').
Proof.
  cbn zeta. unfold ffprobe_callback, usable, run_of, manifestPath, outDir.
  rewrite <- negb_orb.
  destruct (has_stream "video" (streams metadata) || has_stream "audio" (streams metadata));
    cbn [negb progressStore runs files dirs with_files].
  - split; [apply lookup_assign |]. repeat split.
    intros id' Hne. by rewrite lookup_assign_ne.
  - split; [apply lookup_assign |]. split; [done |].
    split; [by rewrite files_assign, try_unlink_spec |]. split; [done |].
    intros id' Hne. by rewrite lookup_assign_ne.
Qed.

(** X7.  Line 78 keeps the reported duration only when it is truthy: a
    duration that is absent, the Number 0 or NaN, or the empty string
    becomes [null].  Whatever time marker an event carries, the listener
    then stores the clamp of the direct percent value if there is one and
    keeps the stored percent otherwise. *)
Theorem falsy_duration_is_null metadata id (progress : option Progress.t)
    sv (r : JobRecord) :
  (∀ (f : Format) (d : Duration),
     format metadata = Some f → duration f = Some d → to_boolean d = false) →
  progressStore sv !! id = Some r →
  duration_of metadata = None
  ∧ ∃ sv' : Server,
      on_progress (duration_of metadata) id progress sv = Some sv'
      ∧ stored_percent id sv'
        = match Interpreter.direct progress with
          | Some v => Some (clamp v)
          | None => percent r
          end.
Proof.
  intros Hd Hr.
  assert (Hnone : duration_of metadata = None).
  { unfold duration_of. destruct (format metadata) as [f|]; [| done].
    destruct (duration f) as [d|] eqn:Hf; [| done]. by rewrite (Hd f d eq_refl Hf). }
  split; [exact Hnone |]. rewrite Hnone.
  eexists. split; [by apply on_progress_record |].
  rewrite stored_percent_assign. cbn [after_progress percent].
  unfold Interpreter.update, Interpreter.interpret. cbn [Interpreter.known].
  by destruct (Interpreter.direct progress).
Qed.

Lemma falsy_duration_is_null_witness :
  let metadata := {| format := Some {| duration := Some (seconds (S754_zero false)) |};
                     streams := [ {| codec_type := "audio" |} ] |} in
  let progress := Some (Progress.mk (Some "00:00:50.00"%string) (Some (JsNumber.of_Z 7)) []) in
  (∀ (f : Format) (d : Duration),
     format metadata = Some f → duration f = Some d → to_boolean d = false)
  ∧ progressStore Sample.processing !! Sample.id
    = Some {| status := Status.processing; percent := Some (JsNumber.of_Z 0);
              error := None; createdAt := None; startedAt := Some "T1"%string;
              finishedAt := None; raw := None |}
  ∧ ∃ sv' : Server,
      on_progress (duration_of metadata) Sample.id progress Sample.processing = Some sv'
      ∧ stored_percent Sample.id sv' = Some (clamp (JsNumber.of_Z 7)).
Proof.
  cbn zeta.
  assert (H1 : ∀ (f : Format) (d : Duration),
             format {| format := Some {| duration := Some (seconds (S754_zero false)) |};
                       streams := [ {| codec_type := "audio" |} ] |} = Some f →
             duration f = Some d → to_boolean d = false).
  { intros f d [= <-] [= <-]. reflexivity. }
  assert (H2 : progressStore Sample.processing !! Sample.id
              = Some {| status := Status.processing; percent := Some (JsNumber.of_Z 0);
                        error := None; createdAt := None; startedAt := Some "T1"%string;
                        finishedAt := None; raw := None |}) by (by vm_compute).
  split; [exact H1 |]. split; [exact H2 |].
  exact (proj2 (falsy_duration_is_null _ Sample.id
                  (Some (Progress.mk (Some "00:00:50.00"%string) (Some (JsNumber.of_Z 7)) []))
                  Sample.processing _ H1 H2)).
Defined.

(** X27.  A duration that the prober reports as a string which does not
    read as a number, as it does with ["N/A"] for an input without a
    duration, is kept by line 78, since a non-empty string is truthy.
    Every event with a three-field time marker then stores NaN, whatever
    the marker says and whatever direct percent the event carries; a
    marker with another number of fields keeps the stored percent; only
    an event without a marker has its direct percent used. *)
Theorem unreadable_duration_stores_nan (s : string) (f : Format) metadata id
    (progress : option Progress.t) sv (r : JobRecord) :
  format metadata = Some f →
  duration f = Some (text s) →
  s ≠ EmptyString →
  JsString.to_number s = JsNumber.NaN →
  progressStore sv !! id = Some r →
  duration_of metadata = Some (text s)
  ∧ ∃ sv' : Server,
      on_progress (duration_of metadata) id progress sv = Some sv'
      ∧ stored_percent id sv'
        = match Interpreter.marker progress with
          | Some tm =>
              if Nat.eqb (List.length (JsString.split ":" tm)) 3
              then Some JsNumber.NaN else percent r
          | None =>
              match Interpreter.direct progress with
              | Some v => Some (clamp v)
              | None => percent r
              end
          end.
Proof.
  intros Hf Hd Hs Hnan Hr.
  assert (Hkeep : duration_of metadata = Some (text s)).
  { unfold duration_of. rewrite Hf, Hd. cbn [to_boolean duration_operand].
    by destruct (String.eqb_spec s EmptyString). }
  split; [exact Hkeep |]. rewrite Hkeep.
  eexists. split; [by apply on_progress_record |].
  rewrite stored_percent_assign. cbn [after_progress percent].
  unfold Interpreter.update, Interpreter.interpret, Interpreter.known.
  cbn [to_boolean to_number duration_operand].
  destruct (String.eqb_spec s EmptyString) as [|_]; [done |]. cbn [negb].
  destruct (Interpreter.marker progress) as [tm|].
  - rewrite Hnan.
    destruct (JsString.split ":" tm) as [|hh [|mm [|ss [|x parts]]]];
      cbn [List.length Nat.eqb]; try done.
    by destruct (Interpreter.elapsedSeconds hh mm ss).
  - by destruct (Interpreter.direct progress).
Qed.

Lemma unreadable_duration_stores_nan_witness :
  let metadata := {| format := Some {| duration := Some (text "N/A") |};
                     streams := [ {| codec_type := "audio" |} ] |} in
  let progress := Some (Progress.mk (Some "00:00:50.00"%string) (Some (JsNumber.of_Z 7)) []) in
  JsString.to_number "N/A" = JsNumber.NaN
  ∧ progressStore Sample.processing !! Sample.id
    = Some {| status := Status.processing; percent := Some (JsNumber.of_Z 0);
              error := None; createdAt := None; startedAt := Some "T1"%string;
              finishedAt := None; raw := None |}
  ∧ ∃ sv' : Server,
      on_progress (duration_of metadata) Sample.id progress Sample.processing = Some sv'
      ∧ stored_percent Sample.id sv' = Some JsNumber.NaN.
Proof.
  cbn zeta.
  assert (H : progressStore Sample.processing !! Sample.id
              = Some {| status := Status.processing; percent := Some (JsNumber.of_Z 0);
                        error := None; createdAt := None; startedAt := Some "T1"%string;
                        finishedAt := None; raw := None |}) by (by vm_compute).
  split; [reflexivity |]. split; [exact H |].
  exact (proj2 (unreadable_duration_stores_nan "N/A" {| duration := Some (text "N/A") |}
                  {| format := Some {| duration := Some (text "N/A") |};
                     streams := [ {| codec_type := "audio" |} ] |}
                  Sample.id
                  (Some (Progress.mk (Some "00:00:50.00"%string) (Some (JsNumber.of_Z 7)) []))
                  Sample.processing _ eq_refl eq_refl ltac:(discriminate) eq_refl H)).
Defined.

(** X8.  The encoder command disables exactly the absent media types:
    it holds the "no video" call if and only if there is no video stream,
    and otherwise the VP9 codec with the 720-line scale filter; likewise
    "no audio" or the Opus codec at 96k for audio. *)
Theorem command_disables_absent_streams (hasVideo hasAudio : bool) (target : string) :
  (noVideo ∈ command hasVideo hasAudio target ↔ hasVideo = false)
  ∧ (noAudio ∈ command hasVideo hasAudio target ↔ hasAudio = false)
  ∧ (∀ c : string, videoCodec c ∈ command hasVideo hasAudio target
                   ↔ hasVideo = true ∧ c = "libvpx-vp9"%string)
  ∧ (∀ f : string, videoFilters f ∈ command hasVideo hasAudio target
                   ↔ hasVideo = true ∧ f = "scale=-2:720"%string)
  ∧ (∀ c : string, audioCodec c ∈ command hasVideo hasAudio target
                   ↔ hasAudio = true ∧ c = "libopus"%string)
  ∧ (∀ b : string, audioBitrate b ∈ command hasVideo hasAudio target
                   ↔ hasAudio = true ∧ b = "96k"%string).
Proof.
  destruct hasVideo, hasAudio; unfold command; cbn [app];
    repeat match goal with |- _ ∧ _ => split end;
    try intros ?; rewrite ?elem_of_cons, elem_of_nil; intuition congruence.
Qed.

(** X9.  Whatever the classification, the command writes to exactly one
    target, named by its last call, and its last options carry the
    manifest format, the segment length, the stream map and, under
    [-adaptation_sets], the directive string of the classification. *)
Theorem command_ends_with_output (hasVideo hasAudio : bool) (target : string) :
  last (command hasVideo hasAudio target) = Some (output target)
  ∧ (∀ t : string, output t ∈ command hasVideo hasAudio target ↔ t = target)
  ∧ outputOptions (baseOutputOptions hasVideo hasAudio) ∈ command hasVideo hasAudio target
  ∧ option_value "-adaptation_sets" (baseOutputOptions hasVideo hasAudio)
    = Some (adaptationSetsArg hasVideo hasAudio)
  ∧ option_value "-f" (baseOutputOptions hasVideo hasAudio) = Some "webm_dash_manifest"%string
  ∧ option_value "-seg_duration" (baseOutputOptions hasVideo hasAudio) = Some "4"%string
  ∧ option_value "-map" (baseOutputOptions hasVideo hasAudio) = Some "0"%string.
Proof.
  split; [by destruct hasVideo, hasAudio |].
  split.
  { intros t. destruct hasVideo, hasAudio; unfold command; cbn [app];
      rewrite ?elem_of_cons, elem_of_nil; intuition congruence. }
  split.
  { destruct hasVideo, hasAudio; unfold command; cbn [app];
      rewrite ?elem_of_cons; intuition congruence. }
  by destruct hasVideo, hasAudio.
Qed.
End Probe.

(** ** More on the progress listener *)

Section ProgressMore.
Implicit Types (sv : Server) (id : string) (r : JobRecord)
  (duration : option number) (progress : option Progress.t).

Lemma update_update `{Operand D} (duration : option D) progress
    (previous : option number) :
  Interpreter.update duration progress (Interpreter.update duration progress previous)
  = Interpreter.update duration progress previous.
Proof. unfold Interpreter.update. by destruct (Interpreter.interpret duration progress). Qed.

Lemma after_progress_twice `{Operand D} (duration : option D) progress r :
  after_progress duration progress (after_progress duration progress r)
  = after_progress duration progress r.
Proof. unfold after_progress; cbn. by rewrite update_update. Qed.

(** The listener completes exactly on a job that has a record. *)
Lemma on_progress_some `{Operand D} (duration : option D) id progress sv sv' :
  on_progress duration id progress sv = Some sv' →
  ∃ r, progressStore sv !! id = Some r
       ∧ sv' = assign id (after_progress duration progress r) sv.
Proof.
  destruct (progressStore sv !! id) as [r|] eqn:Hr.
  - rewrite (on_progress_record _ _ _ _ _ Hr). intros [= <-]. by exists r.
  - by rewrite (on_progress_no_record _ _ _ _ Hr).
Qed.

(** X10.  A progress event changes nothing but the record of its own
    job: the files, the directories, the started runs and the records of
    all other jobs are as before. *)
Theorem progress_frame duration id progress sv sv' :
  on_progress duration id progress sv = Some sv' →
  files sv' = files sv ∧ dirs sv' = dirs sv ∧ runs sv' = runs sv
  ∧ (∀ id' : string, id' ≠ id → progressStore sv' !! id' = progressStore sv !! id').
Proof.
  intros (r & Hr & ->)%on_progress_some. repeat split.
  intros id' Hne. by apply lookup_assign_ne.
Qed.

Lemma progress_frame_witness :
  on_progress (Some (JsNumber.of_Z 100)) Sample.id (Sample.at_time "00:00:50.00")
    Sample.processing
  = Some (assign Sample.id
            {| status := Status.processing; percent := Some (JsNumber.of_Z 50);
               error := None; createdAt := None; startedAt := Some "T1"%string;
               finishedAt := None; raw := Some (Sample.at_time "00:00:50.00") |}
            Sample.processing)
  ∧ (Sample.inputPath
     ∈ files (assign Sample.id
                {| status := Status.processing; percent := Some (JsNumber.of_Z 50);
                   error := None; createdAt := None; startedAt := Some "T1"%string;
                   finishedAt := None; raw := Some (Sample.at_time "00:00:50.00") |}
                Sample.processing)).
Proof.
  assert (H : on_progress (Some (JsNumber.of_Z 100)) Sample.id
                (Sample.at_time "00:00:50.00") Sample.processing
              = Some (assign Sample.id
                        {| status := Status.processing; percent := Some (JsNumber.of_Z 50);
                           error := None; createdAt := None; startedAt := Some "T1"%string;
                           finishedAt := None;
                           raw := Some (Sample.at_time "00:00:50.00") |}
                        Sample.processing)).
  { rewrite (on_progress_record _ _ _ _
               {| status := Status.processing; percent := Some (JsNumber.of_Z 0);
                  error := None; createdAt := None; startedAt := Some "T1"%string;
                  finishedAt := None; raw := None |}) by (by vm_compute).
    by vm_compute. }
  split; [exact H |].
  rewrite (proj1 (progress_frame _ _ _ _ _ H)).
  change (files Sample.processing) with ({[ Sample.inputPath ]} : gset string).
  by apply elem_of_singleton.
Defined.

(** X11.  Delivering the same progress event a second time changes
    nothing: the state after the repeat is the state after the first. *)
Theorem progress_idempotent duration id progress sv sv' :
  on_progress duration id progress sv = Some sv' →
  on_progress duration id progress sv' = Some sv'.
Proof.
  intros (r & Hr & ->)%on_progress_some.
  rewrite (on_progress_record _ _ _ _ _ (lookup_assign _ _ _)).
  by rewrite after_progress_twice, assign_assign.
Qed.

Lemma progress_idempotent_witness :
  ∃ sv' : Server,
    on_progress (Some (JsNumber.of_Z 100)) Sample.id (Sample.at_time "00:00:50.00")
      Sample.processing = Some sv'
    ∧ on_progress (Some (JsNumber.of_Z 100)) Sample.id (Sample.at_time "00:00:50.00")
        sv' = Some sv'.
Proof.
  eexists. split.
  - apply (on_progress_record _ _ _ _
             {| status := Status.processing; percent := Some (JsNumber.of_Z 0);
                error := None; createdAt := None; startedAt := Some "T1"%string;
                finishedAt := None; raw := None |}). by vm_compute.
  - apply progress_idempotent with (sv := Sample.processing).
    apply (on_progress_record _ _ _ _
             {| status := Status.processing; percent := Some (JsNumber.of_Z 0);
                error := None; createdAt := None; startedAt := Some "T1"%string;
                finishedAt := None; raw := None |}). by vm_compute.
Defined.

Lemma listen_all_app (run : Run) (es es' : list Event) sv :
  listen_all run (es ++ es') sv
  = match listen_all run es sv with
    | Some sv' => listen_all run es' sv'
    | None => None
    end.
Proof.
  revert sv. induction es as [|e es IH]; intros sv; cbn [app listen_all]; [done |].
  by destruct (listen run e sv).
Qed.

(** Progress events on a job with a record all complete, keep a record
    with the same status there, and change nothing else. *)
Lemma listen_progress_record (run : Run) (events : list (option Progress.t)) sv r0 :
  progressStore sv !! run_id run = Some r0 →
  ∃ sv' r',
    listen_all run (map ev_progress events) sv = Some sv'
    ∧ progressStore sv' !! run_id run = Some r'
    ∧ status r' = status r0
    ∧ files sv' = files sv ∧ dirs sv' = dirs sv ∧ runs sv' = runs sv
    ∧ (∀ id' : string, id' ≠ run_id run →
         progressStore sv' !! id' = progressStore sv !! id').
Proof.
  revert sv r0. induction events as [|p events IH]; intros sv r0 Hr.
  - exists sv, r0. by repeat split.
  - cbn [map listen_all listen]. rewrite (on_progress_record _ _ _ _ _ Hr).
    destruct (IH _ _ (lookup_assign (run_id run)
                        (after_progress (run_duration run) p r0) sv))
      as (sv' & r' & Hrun & Hr' & Hst & Hf & Hd & Hru & Hother).
    exists sv', r'. repeat split; try done.
    intros id' Hne. rewrite (Hother id' Hne). by apply lookup_assign_ne.
Qed.

(** X12.  After any sequence of progress events the record of the job
    holds the last of them under [raw]. *)
Theorem raw_is_last_event (run : Run) (events : list (option Progress.t))
    (last_event : option Progress.t) sv r0 :
  progressStore sv !! run_id run = Some r0 →
  ∃ sv' r',
    listen_all run (map ev_progress (events ++ [last_event])) sv = Some sv'
    ∧ progressStore sv' !! run_id run = Some r'
    ∧ raw r' = Some last_event.
Proof.
  intros Hr.
  destruct (listen_progress_record run events sv r0 Hr) as (sv1 & r1 & Hrun & Hr1 & _).
  rewrite map_app, listen_all_app, Hrun. cbn [map listen_all listen].
  rewrite (on_progress_record _ _ _ _ _ Hr1).
  eexists _, _. split; [reflexivity |]. split; [apply lookup_assign | done].
Qed.

Lemma raw_is_last_event_witness :
  progressStore Sample.processing !! run_id Sample.the_run
  = Some {| status := Status.processing; percent := Some (JsNumber.of_Z 0);
            error := None; createdAt := None; startedAt := Some "T1"%string;
            finishedAt := None; raw := None |}
  ∧ ∃ sv' r',
      listen_all Sample.the_run
        (map ev_progress ([Sample.at_time "00:00:50.00"] ++ [None])) Sample.processing
      = Some sv'
      ∧ progressStore sv' !! run_id Sample.the_run = Some r'
      ∧ raw r' = Some None.
Proof.
  assert (H : progressStore Sample.processing !! run_id Sample.the_run
              = Some {| status := Status.processing; percent := Some (JsNumber.of_Z 0);
                        error := None; createdAt := None; startedAt := Some "T1"%string;
                        finishedAt := None; raw := None |}) by (by vm_compute).
  split; [exact H |].
  exact (raw_is_last_event Sample.the_run [Sample.at_time "00:00:50.00"] None
           Sample.processing _ H).
Defined.

Lemma clamp_small_integers :
  forallb (λ n, bool_decide (clamp (JsNumber.of_Z n) = JsNumber.of_Z n)) (seqZ 0 101) = true.
Proof. by vm_compute. Qed.

Lemma clamp_integer (n : Z) : 0 ≤ n ≤ 100 → clamp (JsNumber.of_Z n) = JsNumber.of_Z n.
Proof.
  intros Hn. pose proof clamp_small_integers as H.
  rewrite forallb_forall in H.
  assert (Hin : In n (seqZ 0 101)) by (apply list_elem_of_In, elem_of_seqZ; lia).
  apply H in Hin. by apply bool_decide_eq_true in Hin.
Qed.

(** X13.  When the time-marker branch does not apply, a direct percent
    value that is an integer from 0 to 100 is stored as it is. *)
Theorem integer_percent_kept (n : Z) duration progress id sv r :
  0 ≤ n ≤ 100 →
  timed duration progress = None →
  Interpreter.direct progress = Some (JsNumber.of_Z n) →
  progressStore sv !! id = Some r →
  ∃ sv' : Server,
    on_progress duration id progress sv = Some sv'
    ∧ stored_percent id sv' = Some (JsNumber.of_Z n).
Proof.
  intros Hn Ht Hd Hr. eexists. split; [by apply on_progress_record |].
  rewrite stored_percent_assign. cbn [after_progress percent].
  unfold Interpreter.update, Interpreter.interpret.
  rewrite timed_known_marker in Ht.
  destruct (Interpreter.known duration) as [d|], (Interpreter.marker progress) as [tm|];
    try discriminate; rewrite Hd; f_equal; by apply clamp_integer.
Qed.

Lemma integer_percent_kept_witness :
  let progress := Some (Progress.mk None (Some (JsNumber.of_Z 42)) []) in
  0 ≤ 42 ≤ 100
  ∧ timed (Some (JsNumber.of_Z 100)) progress = None
  ∧ Interpreter.direct progress = Some (JsNumber.of_Z 42)
  ∧ progressStore Sample.processing !! Sample.id
    = Some {| status := Status.processing; percent := Some (JsNumber.of_Z 0);
              error := None; createdAt := None; startedAt := Some "T1"%string;
              finishedAt := None; raw := None |}
  ∧ ∃ sv' : Server,
      on_progress (Some (JsNumber.of_Z 100)) Sample.id progress Sample.processing = Some sv'
      ∧ stored_percent Sample.id sv' = Some (JsNumber.of_Z 42).
Proof.
  cbn zeta.
  assert (H1 : 0 ≤ 42 ≤ 100) by lia.
  assert (H2 : progressStore Sample.processing !! Sample.id
              = Some {| status := Status.processing; percent := Some (JsNumber.of_Z 0);
                        error := None; createdAt := None; startedAt := Some "T1"%string;
                        finishedAt := None; raw := None |}) by (by vm_compute).
  split; [exact H1 |]. split; [reflexivity |]. split; [reflexivity |]. split; [exact H2 |].
  exact (integer_percent_kept 42 (Some (JsNumber.of_Z 100))
           (Some (Progress.mk None (Some (JsNumber.of_Z 42)) []))
           Sample.id Sample.processing _ H1 eq_refl eq_refl H2).
Defined.
End ProgressMore.

(** ** The terminal listeners and the status query *)

Section Terminal.
Implicit Types (sv : Server) (id inputPath now : string).

(** X14.  The ['error'] listener, in whatever state it runs, leaves the
    job in "error" with the message of the error object (none when the
    object or its message is missing) and without percent or timestamps;
    the status query returns that record; the upload is gone, every other
    file, the directories, the runs and the other jobs are as before. *)
Theorem error_makes_error id inputPath (err : option Err) sv :
  let sv' := on_error id inputPath err sv in
  let r := {| status := Status.error; percent := None;
              error := match err with Some e => message e | None => None end;
              createdAt := None; startedAt := None; finishedAt := None; raw := None |} in
  progressStore sv' !! id = Some r
  ∧ status_handler id sv' = {| code := 200; body := status_body (record r) |}
  ∧ files sv' = files sv ∖ {[ inputPath ]}
  ∧ dirs sv' = dirs sv ∧ runs sv' = runs sv
  ∧ (∀ id' : string, id' ≠ id → progressStore sv' !! id' = progressStore sv !! id').
Proof.
  cbn zeta. unfold on_error. cbn [progressStore files dirs runs with_files].
  split; [apply lookup_assign |].
  split; [apply status_handler_own, lookup_assign |].
  split; [by rewrite files_assign, try_unlink_spec |].
  repeat split. intros id' Hne. by apply lookup_assign_ne.
Qed.

(** X15.  Cleanup tolerates a missing upload: when the file is already
    gone, [unlinkSync] throws, the listeners swallow it, the files stay as
    they are and the record is written all the same. *)
Theorem cleanup_tolerates_missing_upload id inputPath now (err : option Err) sv :
  inputPath ∉ files sv →
  unlinkSync inputPath (files sv) = None
  ∧ files (on_end id inputPath now sv) = files sv
  ∧ files (on_error id inputPath err sv) = files sv
  ∧ (status <$> progressStore (on_end id inputPath now sv) !! id) = Some Status.ready
  ∧ (status <$> progressStore (on_error id inputPath err sv) !! id) = Some Status.error.
Proof.
  intros Hin.
  assert (Hu : unlinkSync inputPath (files sv) = None)
    by (unfold unlinkSync; by rewrite bool_decide_eq_false_2).
  split; [exact Hu |].
  unfold on_end, on_error. cbn [progressStore files with_files].
  rewrite !files_assign. unfold try_unlink. rewrite Hu.
  by rewrite !lookup_assign.
Qed.

Lemma cleanup_tolerates_missing_upload_witness :
  let done := on_end Sample.id Sample.inputPath "T2" Sample.processing in
  (Sample.inputPath ∉ files done)
  ∧ files (on_error Sample.id Sample.inputPath None done) = files done
  ∧ files (on_end Sample.id Sample.inputPath "T3" done) = files done.
Proof.
  cbn zeta.
  assert (H : Sample.inputPath
              ∉ files (on_end Sample.id Sample.inputPath "T2" Sample.processing)).
  { unfold on_end. cbn [files with_files]. rewrite try_unlink_spec.
    rewrite elem_of_difference, elem_of_singleton. tauto. }
  split; [exact H |].
  destruct (cleanup_tolerates_missing_upload Sample.id Sample.inputPath "T3" None _ H)
    as (_ & He & Hr & _).
  split; [exact Hr | exact He].
Defined.

(** X16.  For an identifier of UUID shape the status query answers with
    the record when the store has one and with 404 "id not found" when it
    has none. *)
Theorem status_of_uuid id sv :
  is_uuid id = true →
  status_handler id sv
  = match progressStore sv !! id with
    | Some r => {| code := 200; body := status_body (record r) |}
    | None => {| code := 404; body := error_body "id not found" |}
    end.
Proof.
  intros Hu. unfold status_handler. rewrite (get_uuid _ _ Hu).
  by destruct (progressStore sv !! id).
Qed.

Lemma status_of_uuid_witness :
  is_uuid "00000000-0000-4000-8000-000000000000" = true
  ∧ status_handler "00000000-0000-4000-8000-000000000000" Sample.queued
    = {| code := 404; body := error_body "id not found" |}.
Proof.
  assert (H : is_uuid "00000000-0000-4000-8000-000000000000" = true) by (by vm_compute).
  split; [exact H |].
  rewrite (status_of_uuid _ Sample.queued H). by vm_compute.
Defined.

(** X17.  The status query answers 404 exactly for an identifier that
    has no record and is not the name of an inherited member; in every
    other case it answers 200, with the record when there is one. *)
Theorem status_not_found_iff id sv :
  (code (status_handler id sv) = 404
   ↔ progressStore sv !! id = None ∧ id ∉ object_prototype_properties)
  ∧ (code (status_handler id sv) = 404 ∨ code (status_handler id sv) = 200)
  ∧ (∀ r : JobRecord, progressStore sv !! id = Some r →
       status_handler id sv = {| code := 200; body := status_body (record r) |})
  ∧ (code (status_handler id sv) = 404 →
       body (status_handler id sv) = error_body "id not found").
Proof.
  unfold status_handler, get.
  destruct (progressStore sv !! id) as [r|].
  - cbn. repeat split; try done; [by intros [? _] | by right | by intros r' [= ->]].
  - destruct (decide (id ∈ object_prototype_properties)) as [Hin | Hin].
    + rewrite bool_decide_eq_true_2 by done. cbn.
      repeat split; try done; [by intros [_ ?] | by right].
    + rewrite bool_decide_eq_false_2 by done. cbn.
      repeat split; try done. by left.
Qed.
End Terminal.

(** ** The server as a transition system *)

Section Transitions.
Implicit Types (sv : Server) (a : Action) (dirname id : string).

(** What one action does to the store: nothing, or one assignment under
    the identifier of its job. *)
Lemma perform_store dirname a sv sv' :
  perform dirname a sv = Some sv' →
  progressStore sv' = progressStore sv
  ∨ ∃ r : JobRecord, progressStore sv' = <[ action_id a := r ]> (progressStore sv).
Proof.
  destruct a as [req id now | id inputPath now probe | run e]; cbn [perform action_id].
  - intros [= <-]. unfold upload. destruct (file req); [right | left]; by eexists.
  - intros [= <-]. right. unfold ffprobe_callback.
    destruct probe as [err | metadata]; [by eexists |].
    destruct (negb _ && negb _); by eexists.
  - destruct e as [p | err | now]; cbn [listen].
    + intros (r & Hr & ->)%on_progress_some. right. by eexists.
    + intros [= <-]. right. by eexists.
    + intros [= <-]. right. by eexists.
Qed.

(** What one action does to the files: nothing, or the removal of the
    upload of its job. *)
Lemma perform_files dirname a sv sv' :
  perform dirname a sv = Some sv' →
  files sv' = files sv
  ∨ ∃ p : string, action_input a = Some p ∧ files sv' = files sv ∖ {[ p ]}.
Proof.
  destruct a as [req id now | id inputPath now probe | run e]; cbn [perform action_input].
  - intros [= <-]. left. unfold upload. by destruct (file req).
  - intros [= <-]. unfold ffprobe_callback.
    destruct probe as [err | metadata]; [by left |].
    destruct (negb _ && negb _); [right | by left].
    exists inputPath. split; [done |]. cbn [files with_files].
    by rewrite files_assign, try_unlink_spec.
  - destruct e as [p | err | now]; cbn [listen].
    + intros (r & Hr & ->)%on_progress_some. by left.
    + intros [= <-]. right. exists (run_input run). split; [done |].
      unfold on_error. cbn [files with_files]. by rewrite files_assign, try_unlink_spec.
    + intros [= <-]. right. exists (run_input run). split; [done |].
      unfold on_end. cbn [files with_files]. by rewrite files_assign, try_unlink_spec.
Qed.

(** What one action does to the started runs: nothing, or one more run,
    of its job, for which it has just written a record. *)
Lemma perform_runs dirname a sv sv' :
  perform dirname a sv = Some sv' →
  runs sv' = runs sv
  ∨ ∃ run : Run, runs sv' = runs sv ++ [run]
      ∧ run_id run = action_id a
      ∧ is_Some (progressStore sv' !! run_id run).
Proof.
  destruct a as [req id now | id inputPath now probe | run e]; cbn [perform action_id].
  - intros [= <-]. left. unfold upload. by destruct (file req).
  - intros [= <-]. unfold ffprobe_callback.
    destruct probe as [err | metadata]; [by left |].
    destruct (negb _ && negb _); [by left | right].
    eexists. split; [reflexivity |]. split; [reflexivity |].
    cbn [run_id progressStore]. rewrite lookup_assign. by eexists.
  - destruct e as [p | err | now]; cbn [listen].
    + intros (r & Hr & ->)%on_progress_some. by left.
    + intros [= <-]. by left.
    + intros [= <-]. by left.
Qed.

Lemma perform_dirs dirname a sv sv' :
  perform dirname a sv = Some sv' → dirs sv ⊆ dirs sv'.
Proof.
  destruct a as [req id now | id inputPath now probe | run e]; cbn [perform].
  - intros [= <-]. unfold upload. destruct (file req); cbn; [| done].
    apply union_subseteq_r.
  - intros [= <-]. unfold ffprobe_callback.
    destruct probe as [err | metadata]; [done |]. by destruct (negb _ && negb _).
  - destruct e as [p | err | now]; cbn [listen].
    + by intros (r & Hr & ->)%on_progress_some.
    + by intros [= <-].
    + by intros [= <-].
Qed.

Lemma perform_keeps_records dirname a sv sv' id :
  perform dirname a sv = Some sv' →
  is_Some (progressStore sv !! id) → is_Some (progressStore sv' !! id).
Proof.
  intros [-> | [r ->]]%perform_store; [done |].
  intros Hid. rewrite lookup_insert. by case_decide.
Qed.

Lemma perform_invariant dirname a sv sv' :
  perform dirname a sv = Some sv' → runs_have_records sv → runs_have_records sv'.
Proof.
  intros Hp Hinv run Hrun.
  destruct (perform_runs _ _ _ _ Hp) as [Heq | (new & Heq & _ & Hnew)].
  - rewrite Heq in Hrun. by apply (perform_keeps_records _ _ _ _ _ Hp), Hinv.
  - rewrite Heq in Hrun. apply elem_of_app in Hrun as [Hold | Hhere].
    + by apply (perform_keeps_records _ _ _ _ _ Hp), Hinv.
    + apply list_elem_of_singleton in Hhere as ->. exact Hnew.
Qed.

Lemma reaches_invariant dirname sv0 sv :
  reaches dirname sv0 sv → runs_have_records sv0 → runs_have_records sv.
Proof.
  induction 1 as [|sv sv' a Hreach IH Hen Hp]; intros H0; [done |].
  by apply (perform_invariant _ _ _ _ Hp), IH.
Qed.

(** X18.  From a server without started runs, whatever uploads, probe
    answers and encoder events follow, no handler ever throws: every
    started run has a record, so its listeners always complete. *)
Theorem handlers_never_throw dirname sv0 sv a :
  runs sv0 = [] →
  reaches dirname sv0 sv →
  enabled a sv →
  runs_have_records sv ∧ is_Some (perform dirname a sv).
Proof.
  intros H0 Hreach Hen.
  assert (Hinv : runs_have_records sv).
  { apply (reaches_invariant _ _ _ Hreach). intros run Hrun.
    rewrite H0 in Hrun. by apply elem_of_nil in Hrun. }
  split; [exact Hinv |].
  destruct a as [req id now | id inputPath now probe | run e]; cbn [perform];
    [by eexists | by eexists |].
  destruct e as [p | err | now]; cbn [listen]; [| by eexists | by eexists].
  destruct (Hinv run Hen) as [r Hr]. rewrite (on_progress_record _ _ _ _ _ Hr).
  by eexists.
Qed.

Lemma handlers_never_throw_witness :
  runs Sample.fresh = []
  ∧ reaches Sample.dirname Sample.fresh Sample.processing
  ∧ enabled (encoder_event Sample.the_run (ev_progress (Sample.at_time "00:00:50.00")))
      Sample.processing
  ∧ is_Some (perform Sample.dirname
               (encoder_event Sample.the_run (ev_progress (Sample.at_time "00:00:50.00")))
               Sample.processing).
Proof.
  assert (H1 : reaches Sample.dirname Sample.fresh Sample.processing).
  { apply (reaches_step _ _ Sample.queued _
             (probe_result Sample.id Sample.inputPath "T1" (inr Sample.metadata)));
      [| exact I | reflexivity].
    apply (reaches_step _ _ Sample.fresh _ (upload_request Sample.request Sample.id "T0"));
      [apply reaches_here | exact I | reflexivity]. }
  assert (H2 : enabled (encoder_event Sample.the_run
                          (ev_progress (Sample.at_time "00:00:50.00"))) Sample.processing).
  { cbn [enabled]. rewrite sample_run_started. by apply list_elem_of_singleton. }
  split; [reflexivity |]. split; [exact H1 |]. split; [exact H2 |].
  exact (proj2 (handlers_never_throw Sample.dirname Sample.fresh Sample.processing _
                  eq_refl H1 H2)).
Defined.

(** X19.  Along every run of the server records are never removed, the
    handlers add no file (they only remove uploads), directories are
    never removed, and the list of started runs only grows at its end. *)
Theorem server_monotone dirname sv0 sv :
  reaches dirname sv0 sv →
  dom (progressStore sv0) ⊆ dom (progressStore sv)
  ∧ files sv ⊆ files sv0
  ∧ dirs sv0 ⊆ dirs sv
  ∧ runs sv0 `prefix_of` runs sv.
Proof.
  induction 1 as [|sv sv' a Hreach (IHs & IHf & IHd & IHr) Hen Hp]; [done |].
  repeat split.
  - etrans; [exact IHs |]. intros id Hid. apply elem_of_dom. apply elem_of_dom in Hid.
    by apply (perform_keeps_records _ _ _ _ _ Hp).
  - etrans; [| exact IHf].
    destruct (perform_files _ _ _ _ Hp) as [-> | (p & _ & ->)]; [done |].
    apply subseteq_difference_l. done.
  - etrans; [exact IHd |]. by apply (perform_dirs _ _ _ _ Hp).
  - etrans; [exact IHr |].
    destruct (perform_runs _ _ _ _ Hp) as [-> | (run & -> & _)]; [done |].
    by apply prefix_app_r.
Qed.

Lemma server_monotone_witness :
  reaches Sample.dirname Sample.fresh Sample.processing
  ∧ files Sample.processing ⊆ files Sample.fresh
  ∧ runs Sample.fresh `prefix_of` runs Sample.processing.
Proof.
  assert (H1 : reaches Sample.dirname Sample.fresh Sample.processing).
  { apply (reaches_step _ _ Sample.queued _
             (probe_result Sample.id Sample.inputPath "T1" (inr Sample.metadata)));
      [| exact I | reflexivity].
    apply (reaches_step _ _ Sample.fresh _ (upload_request Sample.request Sample.id "T0"));
      [apply reaches_here | exact I | reflexivity]. }
  split; [exact H1 |].
  destruct (server_monotone Sample.dirname Sample.fresh Sample.processing H1)
    as (_ & Hf & _ & Hr).
  split; [exact Hf | exact Hr].
Defined.

(** X20.  An action touches only its own job: the record of every other
    identifier is as before, and so is every file other than the upload
    of the job. *)
Theorem other_jobs_untouched dirname a sv sv' :
  perform dirname a sv = Some sv' →
  (∀ id : string, id ≠ action_id a → progressStore sv' !! id = progressStore sv !! id)
  ∧ (∀ p : string, action_input a ≠ Some p → p ∈ files sv' ↔ p ∈ files sv).
Proof.
  intros Hp. split.
  - intros id Hne. destruct (perform_store _ _ _ _ Hp) as [-> | [r ->]]; [done |].
    by rewrite lookup_insert_ne.
  - intros p Hne. destruct (perform_files _ _ _ _ Hp) as [-> | (q & Hq & ->)]; [done |].
    rewrite elem_of_difference, elem_of_singleton.
    split; [by intros [? _] |]. intros Hin. split; [done |]. intros ->. congruence.
Qed.

Lemma other_jobs_untouched_witness :
  perform Sample.dirname
    (encoder_event Sample.the_run (ev_end "T2")) Sample.processing
  = Some (on_end Sample.id Sample.inputPath "T2" Sample.processing)
  ∧ progressStore (on_end Sample.id Sample.inputPath "T2" Sample.processing)
      !! "another-job"%string
    = progressStore Sample.processing !! "another-job"%string.
Proof.
  assert (H : perform Sample.dirname
                (encoder_event Sample.the_run (ev_end "T2")) Sample.processing
              = Some (on_end Sample.id Sample.inputPath "T2" Sample.processing))
    by reflexivity.
  split; [exact H |].
  apply (proj1 (other_jobs_untouched _ _ _ _ H)). discriminate.
Defined.
End Transitions.

(** ** Whole jobs *)

Section Jobs.
Implicit Types (sv : Server) (dirname id : string) (metadata : Metadata).

(** The state a successful probe of usable metadata leaves. *)
Lemma ffprobe_usable dirname id inputPath now metadata sv :
  usable metadata = true →
  ffprobe_callback dirname id inputPath now (inr metadata) sv
  = {| progressStore :=
         <[ id := {| status := Status.processing; percent := Some (JsNumber.of_Z 0);
                     error := None; createdAt := None; startedAt := Some now;
                     finishedAt := None; raw := None |} ]> (progressStore sv);
       files := files sv; dirs := dirs sv;
       runs := runs sv ++ [run_of dirname id inputPath metadata] |}.
Proof.
  unfold usable, ffprobe_callback. intros Hu. rewrite <- negb_orb, Hu. reflexivity.
Qed.

(** The state the upload handler leaves when there is a file. *)
Lemma upload_accepted dirname req (f : File) id now sv :
  file req = Some f →
  fst (upload dirname req id now sv)
  = {| progressStore :=
         <[ id := {| status := Status.queued; percent := Some (JsNumber.of_Z 0);
                     error := None; createdAt := Some now; startedAt := None;
                     finishedAt := None; raw := None |} ]> (progressStore sv);
       files := files sv; dirs := {[ outDir dirname id ]} ∪ dirs sv; runs := runs sv |}.
Proof. intros Hf. unfold upload. by rewrite Hf. Qed.

(** X21.  A whole successful job: an upload is accepted, the prober
    reports a usable stream, the encoder emits any progress events and
    then ['end'].  No listener throws; the status query then answers
    "ready" with percent 100 and the finished timestamp; the upload is
    removed and nothing else; exactly the run of this job was started;
    the records of other jobs are as they were. *)
Theorem transcode_succeeds dirname req (f : File) id (t0 t1 t2 : string) metadata
    (events : list (option Progress.t)) sv :
  file req = Some f →
  usable metadata = true →
  let sv1 := fst (upload dirname req id t0 sv) in
  let sv2 := ffprobe_callback dirname id (path f) t1 (inr metadata) sv1 in
  let run := run_of dirname id (path f) metadata in
  ∃ sv3 : Server,
    listen_all run (map ev_progress events ++ [ev_end t2]) sv2 = Some sv3
    ∧ status_handler id sv3
      = {| code := 200;
           body := status_body (record
                     {| status := Status.ready; percent := Some (JsNumber.of_Z 100);
                        error := None; createdAt := None; startedAt := None;
                        finishedAt := Some t2; raw := None |}) |}
    ∧ files sv3 = files sv ∖ {[ path f ]}
    ∧ runs sv3 = runs sv ++ [run]
    ∧ (∀ id' : string, id' ≠ id → progressStore sv3 !! id' = progressStore sv !! id').
Proof.
  intros Hf Hu. cbn zeta.
  rewrite (upload_accepted _ _ _ _ _ _ Hf), (ffprobe_usable _ _ _ _ _ _ Hu).
  cbn [progressStore files dirs runs].
  set (sv2 := {| progressStore := _; files := files sv |}).
  set (run := run_of dirname id (path f) metadata).
  assert (Hr2 : progressStore sv2 !! run_id run = Some
            {| status := Status.processing; percent := Some (JsNumber.of_Z 0);
               error := None; createdAt := None; startedAt := Some t1;
               finishedAt := None; raw := None |}) by apply lookup_insert_eq.
  destruct (listen_progress_record run events sv2 _ Hr2)
    as (sv' & r' & Hrun & _ & _ & Hfiles & _ & Hruns & Hother).
  rewrite listen_all_app, Hrun. cbn [listen_all listen].
  eexists. split; [reflexivity |]. unfold on_end.
  split; [apply status_handler_own, lookup_assign |].
  cbn [files runs progressStore with_files].
  split; [by rewrite files_assign, try_unlink_spec, Hfiles |].
  split; [by rewrite runs_assign, Hruns |].
  intros id' Hne. rewrite lookup_assign_ne by done. rewrite (Hother id' Hne).
  subst sv2. cbn [progressStore]. by rewrite !lookup_insert_ne.
Qed.

Lemma transcode_succeeds_witness :
  file Sample.request = Some {| path := Sample.inputPath; originalname := "clip.mp4" |}
  ∧ usable Sample.metadata = true
  ∧ ∃ sv3 : Server,
      listen_all (run_of Sample.dirname Sample.id Sample.inputPath Sample.metadata)
        (map ev_progress [Sample.at_time "00:00:50.00"; None] ++ [ev_end "T2"])
        Sample.processing = Some sv3
      ∧ status_handler Sample.id sv3
        = {| code := 200;
             body := status_body (record
                       {| status := Status.ready; percent := Some (JsNumber.of_Z 100);
                          error := None; createdAt := None; startedAt := None;
                          finishedAt := Some "T2"%string; raw := None |}) |}
      ∧ files sv3 = files Sample.fresh ∖ {[ Sample.inputPath ]}.
Proof.
  split; [reflexivity |]. split; [reflexivity |].
  destruct (transcode_succeeds Sample.dirname Sample.request _ Sample.id "T0" "T1" "T2"
              Sample.metadata [Sample.at_time "00:00:50.00"; None] Sample.fresh
              eq_refl eq_refl) as (sv3 & Hrun & Hst & Hf & _).
  exists sv3. split; [exact Hrun |]. split; [exact Hst | exact Hf].
Defined.

(** X22.  A whole failed job: after an accepted upload and a usable
    probe, any progress events followed by ['error'] leave the job in
    "error" with the message of the error object; the upload is removed
    and nothing else. *)
Theorem transcode_fails dirname req (f : File) id (t0 t1 : string) metadata
    (events : list (option Progress.t)) (err : option Err) sv :
  file req = Some f →
  usable metadata = true →
  let sv1 := fst (upload dirname req id t0 sv) in
  let sv2 := ffprobe_callback dirname id (path f) t1 (inr metadata) sv1 in
  let run := run_of dirname id (path f) metadata in
  ∃ sv3 : Server,
    listen_all run (map ev_progress events ++ [ev_error err]) sv2 = Some sv3
    ∧ status_handler id sv3
      = {| code := 200;
           body := status_body (record
                     {| status := Status.error; percent := None;
                        error := match err with Some e => message e | None => None end;
                        createdAt := None; startedAt := None;
                        finishedAt := None; raw := None |}) |}
    ∧ files sv3 = files sv ∖ {[ path f ]}
    ∧ runs sv3 = runs sv ++ [run].
Proof.
  intros Hf Hu. cbn zeta.
  rewrite (upload_accepted _ _ _ _ _ _ Hf), (ffprobe_usable _ _ _ _ _ _ Hu).
  cbn [progressStore files dirs runs].
  set (sv2 := {| progressStore := _; files := files sv |}).
  set (run := run_of dirname id (path f) metadata).
  assert (Hr2 : progressStore sv2 !! run_id run = Some
            {| status := Status.processing; percent := Some (JsNumber.of_Z 0);
               error := None; createdAt := None; startedAt := Some t1;
               finishedAt := None; raw := None |}) by apply lookup_insert_eq.
  destruct (listen_progress_record run events sv2 _ Hr2)
    as (sv' & r' & Hrun & _ & _ & Hfiles & _ & Hruns & _).
  rewrite listen_all_app, Hrun. cbn [listen_all listen].
  eexists. split; [reflexivity |]. unfold on_error.
  split; [apply status_handler_own, lookup_assign |].
  cbn [files runs with_files].
  split; [by rewrite files_assign, try_unlink_spec, Hfiles |].
  by rewrite runs_assign, Hruns.
Qed.

Lemma transcode_fails_witness :
  file Sample.request = Some {| path := Sample.inputPath; originalname := "clip.mp4" |}
  ∧ usable Sample.metadata = true
  ∧ ∃ sv3 : Server,
      listen_all (run_of Sample.dirname Sample.id Sample.inputPath Sample.metadata)
        (map ev_progress [Sample.at_time "00:00:50.00"]
         ++ [ev_error (Some {| message := Some "ffmpeg exited with code 1"%string |})])
        Sample.processing = Some sv3
      ∧ status_handler Sample.id sv3
        = {| code := 200;
             body := status_body (record
                       {| status := Status.error; percent := None;
                          error := Some "ffmpeg exited with code 1"%string;
                          createdAt := None; startedAt := None;
                          finishedAt := None; raw := None |}) |}.
Proof.
  split; [reflexivity |]. split; [reflexivity |].
  destruct (transcode_fails Sample.dirname Sample.request _ Sample.id "T0" "T1"
              Sample.metadata [Sample.at_time "00:00:50.00"]
              (Some {| message := Some "ffmpeg exited with code 1"%string |}) Sample.fresh
              eq_refl eq_refl) as (sv3 & Hrun & Hst & _).
  exists sv3. split; [exact Hrun | exact Hst].
Defined.

(** X23.  A job without media: after an accepted upload, a probe that
    finds neither a video nor an audio stream leaves the status query
    answering "error" with the fixed message; the upload is removed, no
    encoder run is started and the output directory stays. *)
Theorem no_media_job dirname req (f : File) id (t0 t1 : string) metadata sv :
  file req = Some f →
  usable metadata = false →
  let sv1 := fst (upload dirname req id t0 sv) in
  let sv2 := ffprobe_callback dirname id (path f) t1 (inr metadata) sv1 in
  status_handler id sv2
  = {| code := 200;
       body := status_body (record
                 {| status := Status.error; percent := None;
                    error := Some "Input has no audio or video streams."%string;
                    createdAt := None; startedAt := None;
                    finishedAt := None; raw := None |}) |}
  ∧ files sv2 = files sv ∖ {[ path f ]}
  ∧ runs sv2 = runs sv
  ∧ outDir dirname id ∈ dirs sv2.
Proof.
  intros Hf Hu. cbn zeta. rewrite (upload_accepted _ _ _ _ _ _ Hf).
  unfold ffprobe_callback. unfold usable in Hu. rewrite <- negb_orb, Hu. cbn [negb].
  split; [apply status_handler_own, lookup_assign |].
  cbn [files runs dirs with_files].
  split; [by rewrite files_assign, try_unlink_spec |]. split; [done |].
  apply elem_of_union_l. by apply elem_of_singleton.
Qed.

Lemma no_media_job_witness :
  let metadata := {| format := None; streams := [ {| codec_type := "subtitle" |} ] |} in
  file Sample.request = Some {| path := Sample.inputPath; originalname := "clip.mp4" |}
  ∧ usable metadata = false
  ∧ runs (ffprobe_callback Sample.dirname Sample.id Sample.inputPath "T1" (inr metadata)
            Sample.queued) = [].
Proof.
  cbn zeta. split; [reflexivity |]. split; [reflexivity |].
  exact (proj1 (proj2 (proj2
    (no_media_job Sample.dirname Sample.request _ Sample.id "T0" "T1"
       {| format := None; streams := [ {| codec_type := "subtitle" |} ] |} Sample.fresh
       eq_refl eq_refl)))).
Defined.
End Jobs.

(** ** What the started runs look like *)

Section Runs.
Implicit Types (sv : Server) (a : Action) (dirname id : string).

(** An action starts no run, or the run of a usable probe. *)
Lemma perform_new_run dirname a sv sv' :
  perform dirname a sv = Some sv' →
  runs sv' = runs sv
  ∨ ∃ (id inputPath : string) (metadata : Metadata),
      usable metadata = true
      ∧ runs sv' = runs sv ++ [run_of dirname id inputPath metadata].
Proof.
  destruct a as [req id now | id inputPath now probe | run e]; cbn [perform].
  - intros [= <-]. left. unfold upload. by destruct (file req).
  - intros [= <-]. destruct probe as [err | metadata]; [by left |].
    destruct (usable metadata) eqn:Hu.
    + right. exists id, inputPath, metadata. split; [done |].
      by rewrite (ffprobe_usable _ _ _ _ _ _ Hu).
    + left. unfold ffprobe_callback. unfold usable in Hu. by rewrite <- negb_orb, Hu.
  - destruct e as [p | err | now]; cbn [listen].
    + intros (r & Hr & ->)%on_progress_some. by left.
    + intros [= <-]. by left.
    + intros [= <-]. by left.
Qed.

Lemma duration_of_truthy (metadata : Metadata) (d : Duration) :
  duration_of metadata = Some d → to_boolean d = true.
Proof.
  unfold duration_of. destruct (format metadata) as [f|]; [| done].
  destruct (duration f) as [d'|]; [| done].
  destruct (to_boolean d') eqn:Ht; [| done]. by intros [= <-].
Qed.

(** X24.  Every encoder run the server ever starts comes from a
    classification with at least one media type: its command is the one
    built for that classification, it writes to the manifest of its own
    job, its adaptation-sets directive is not empty, and the duration its
    listeners use is absent or truthy. *)
Theorem started_runs_well_formed dirname sv0 sv (run : Run) :
  runs sv0 = [] →
  reaches dirname sv0 sv →
  run ∈ runs sv →
  ∃ hasVideo hasAudio : bool,
    hasVideo || hasAudio = true
    ∧ run_command run = command hasVideo hasAudio (manifestPath dirname (run_id run))
    ∧ adaptationSetsArg hasVideo hasAudio ≠ EmptyString
    ∧ (∀ d : Duration, run_duration run = Some d → to_boolean d = true).
Proof.
  intros H0 Hreach. revert run.
  induction Hreach as [|sv sv' a Hreach IH Hen Hp]; intros run Hrun.
  - rewrite H0 in Hrun. by apply elem_of_nil in Hrun.
  - destruct (perform_new_run _ _ _ _ Hp) as [Heq | (id & inputPath & metadata & Hu & Heq)];
      rewrite Heq in Hrun; [by apply IH |].
    apply elem_of_app in Hrun as [Hold | Hnew]; [by apply IH |].
    apply list_elem_of_singleton in Hnew as ->.
    exists (has_stream "video" (streams metadata)), (has_stream "audio" (streams metadata)).
    split; [exact Hu |]. split; [reflexivity |]. split.
    + unfold usable in Hu.
      by destruct (has_stream "video" _), (has_stream "audio" _).
    + intros d. apply duration_of_truthy.
Qed.

Lemma started_runs_well_formed_witness :
  runs Sample.fresh = []
  ∧ reaches Sample.dirname Sample.fresh Sample.processing
  ∧ (Sample.the_run ∈ runs Sample.processing)
  ∧ ∃ hasVideo hasAudio : bool,
      hasVideo || hasAudio = true
      ∧ run_command Sample.the_run
        = command hasVideo hasAudio (manifestPath Sample.dirname (run_id Sample.the_run))
      ∧ adaptationSetsArg hasVideo hasAudio ≠ EmptyString
      ∧ (∀ d : Duration, run_duration Sample.the_run = Some d → to_boolean d = true).
Proof.
  assert (H1 : reaches Sample.dirname Sample.fresh Sample.processing).
  { apply (reaches_step _ _ Sample.queued _
             (probe_result Sample.id Sample.inputPath "T1" (inr Sample.metadata)));
      [| exact I | reflexivity].
    apply (reaches_step _ _ Sample.fresh _ (upload_request Sample.request Sample.id "T0"));
      [apply reaches_here | exact I | reflexivity]. }
  assert (H2 : Sample.the_run ∈ runs Sample.processing).
  { rewrite sample_run_started. by apply list_elem_of_singleton. }
  split; [reflexivity |]. split; [exact H1 |]. split; [exact H2 |].
  exact (started_runs_well_formed Sample.dirname Sample.fresh Sample.processing
           Sample.the_run eq_refl H1 H2).
Defined.

Lemma length_append (s t : string) :
  String.length (s +:+ t) = (String.length s + String.length t)%nat.
Proof.
  induction s as [|c s IH]; [done |].
  rewrite append_cons. cbn [String.length]. by rewrite IH.
Qed.

Lemma append_inj_r (s s' t : string) : s +:+ t = s' +:+ t → s = s'.
Proof.
  revert s'. induction s as [|c s IH]; intros [|c' s'] H.
  - done.
  - exfalso. apply (f_equal String.length) in H.
    rewrite append_nil_l, append_cons in H. cbn [String.length] in H.
    rewrite length_append in H. lia.
  - exfalso. apply (f_equal String.length) in H.
    rewrite append_nil_l, append_cons in H. cbn [String.length] in H.
    rewrite length_append in H. lia.
  - rewrite !append_cons in H. injection H as -> H. f_equal. by apply IH.
Qed.

(** X25.  Different jobs never share an output directory or a manifest
    file: for identifiers of UUID shape, which need no path normalisation,
    the paths built for two of them are equal only if the identifiers are. *)
Theorem output_paths_distinct dirname id id' :
  is_uuid id = true → is_uuid id' = true →
  (outDir dirname id = outDir dirname id' → id = id')
  ∧ (manifestPath dirname id = manifestPath dirname id' → id = id').
Proof.
  intros _ _.
  assert (H : outDir dirname id = outDir dirname id' → id = id').
  { unfold outDir, path_join. intros H.
    apply (inj (String.app _)) in H. by apply (inj (String.app _)) in H. }
  split; [exact H |]. unfold manifestPath, path_join. intros Hm. apply H.
  by apply append_inj_r in Hm.
Qed.

Lemma output_paths_distinct_witness :
  is_uuid Sample.id = true
  ∧ is_uuid "00000000-0000-4000-8000-000000000000" = true
  ∧ manifestPath Sample.dirname Sample.id
    ≠ manifestPath Sample.dirname "00000000-0000-4000-8000-000000000000".
Proof.
  assert (H1 : is_uuid Sample.id = true) by (by vm_compute).
  assert (H2 : is_uuid "00000000-0000-4000-8000-000000000000" = true) by (by vm_compute).
  split; [exact H1 |]. split; [exact H2 |].
  intros Heq.
  apply (proj2 (output_paths_distinct Sample.dirname _ _ H1 H2)) in Heq.
  discriminate Heq.
Defined.
End Runs.

(** ** The content type of the manifest *)

Section Static.
Implicit Types (p s : string).

(** The library's documented examples. *)
Example extname_examples :
  map Path.extname ["index.html"; "index.coffee.md"; "index."; "index"; ".index";
                    ".index.md"; "a.b/"; ".."]%string
  = [".html"; ".md"; "."; ""; ""; ".md"; ".b"; ""]%string.
Proof. by vm_compute. Qed.

Lemma list_ascii_of_string_append p s :
  list_ascii_of_string (p +:+ s) = list_ascii_of_string p ++ list_ascii_of_string s.
Proof.
  induction p as [|c p IH]; [done |].
  rewrite append_cons. cbn [list_ascii_of_string app]. by rewrite IH.
Qed.

Lemma substring_skip p s (k m : nat) :
  String.substring (String.length p + k) m (p +:+ s) = String.substring k m s.
Proof.
  induction p as [|c p IH]; [done |].
  rewrite append_cons. cbn [String.length Nat.add String.substring]. exact IH.
Qed.

(** The loop on a path that ends in ["/manifest.mpd"] stops at that
    slash, whatever precedes it. *)
Lemma loop_manifest (n : Z) (before : list ascii) :
  0 ≤ n →
  Path.loop (rev (list_ascii_of_string "/manifest.mpd") ++ before) (n + 12) Path.initial
  = {| Path.startDot := n + 9; Path.startPart := n + 1; Path.end_ := n + 13;
       Path.matchedSlash := false; Path.preDotState := -1 |}.
Proof.
  intros Hn.
  unfold Path.initial. cbn [list_ascii_of_string rev app Path.loop].
  repeat (first [ progress cbn [Ascii.eqb Bool.eqb Path.startDot Path.startPart Path.end_
                                Path.matchedSlash Path.preDotState negb Path.loop]
                | unfold Path.step at 1
                | match goal with
                  | |- context [?a =? ?b] =>
                      lazymatch a with context [Z.eqb] => fail | _ => idtac end;
                      first [ destruct (Z.eqb_spec a b); [| exfalso; lia]
                            | destruct (Z.eqb_spec a b); [exfalso; lia |] ]
                  end ]).
  f_equal; lia.
Qed.

(** X26.  The manifest of every job is served as DASH: whatever the
    directory, the file name ["manifest.mpd"] has the extension [".mpd"],
    so the static middleware's hook sets the content type
    [application/dash+xml] on it. *)
Theorem manifest_served_as_dash (dirname id : string) :
  Path.extname (manifestPath dirname id) = ".mpd"%string
  ∧ setHeaders (manifestPath dirname id)
    = [("Content-Type", "application/dash+xml")]%string.
Proof.
  assert (H : Path.extname (manifestPath dirname id) = ".mpd"%string).
  { unfold manifestPath, path_join.
    change ("/" +:+ "manifest.mpd") with "/manifest.mpd"%string.
    set (p := outDir dirname id). unfold Path.extname.
    rewrite list_ascii_of_string_append, rev_app_distr, length_append.
    replace (Z.of_nat (String.length p + String.length "/manifest.mpd") - 1)
      with (Z.of_nat (String.length p) + 12) by (cbn [String.length]; lia).
    rewrite loop_manifest by lia.
    cbn [Path.startDot Path.startPart Path.end_ Path.preDotState].
    repeat match goal with
           | |- context [?a =? ?b] => destruct (Z.eqb_spec a b); try lia
           end.
    cbn [orb andb]. unfold Path.slice.
    replace (Z.to_nat (Z.of_nat (String.length p) + 9)) with (String.length p + 9)%nat by lia.
    replace (Z.to_nat (Z.of_nat (String.length p) + 13 - (Z.of_nat (String.length p) + 9)))
      with 4%nat by lia.
    by rewrite substring_skip. }
  split; [exact H |]. unfold setHeaders. by rewrite H.
Qed.
End Static.
